(** * md2json: splitting a Markdown document on its level-2 headers

    A shallow embedding of [convert_markdown_to_json] (src/md2json.py) and
    of the pieces of the Python runtime it calls: [str.splitlines],
    [str.strip], [re.match] and [re.sub] on the two patterns of the program,
    dictionaries and the exceptions their subscripts can raise.

    A Python [str] is a sequence of code points; it is modelled as a list of
    [N].  The statements below quantify over every such list, which covers
    every string Python can build. *)

From Stdlib Require Import String Ascii List NArith Bool Arith Lia.
Import ListNotations.

(* ------------------------------------------------------------------ *)
(** ** Strings *)

Module Py.

Definition char := N.
Definition str := list char.

Definition LF : char := 10%N.
Definition CR : char := 13%N.
Definition HASH : char := 35%N.

(** [py "abc"] is the Python string with the same (one-byte) characters. *)
Definition py (s : string) : str :=
  map N_of_ascii (list_ascii_of_string s).

Local Open Scope N_scope.

(** [str.isspace] on one character, which is also the class [\s] of a
    [str] pattern: the code points whose bidirectional type is WS, B or S,
    or whose category is Zs. *)
Definition isspace (c : char) : bool :=
  ((9 <=? c) && (c <=? 13)) || ((28 <=? c) && (c <=? 32))
  || (c =? 133) || (c =? 160) || (c =? 5760)
  || ((8192 <=? c) && (c <=? 8202))
  || (c =? 8232) || (c =? 8233) || (c =? 8239) || (c =? 8287)
  || (c =? 12288).

(** The line boundaries of [str.splitlines]: \n \v \f \r, the separators
    \x1c \x1d \x1e, NEL \x85, and the Unicode line and paragraph
    separators. *)
Definition is_linebreak (c : char) : bool :=
  ((10 <=? c) && (c <=? 13)) || ((28 <=? c) && (c <=? 30))
  || (c =? 133) || (c =? 8232) || (c =? 8233).

(** The class [.] of a pattern compiled without DOTALL. *)
Definition dot (c : char) : bool := negb (c =? LF).

Local Close Scope N_scope.

(** [s.splitlines()]: the lines of [s] without their terminators; \r\n is
    one terminator, and a terminator at the very end opens no further
    line. *)
Fixpoint splitlines (s : str) : list str :=
  match s with
  | [] => []
  | c :: s' =>
      if is_linebreak c then
        [] :: match s' with
              | d :: s'' =>
                  if (c =? CR)%N && (d =? LF)%N then splitlines s''
                  else splitlines s'
              | [] => []
              end
      else
        match splitlines s' with
        | [] => [[c]]
        | l :: ls => (c :: l) :: ls
        end
  end.

Fixpoint lstrip (s : str) : str :=
  match s with
  | c :: s' => if isspace c then lstrip s' else s
  | [] => []
  end.

Definition rstrip (s : str) : str := rev (lstrip (rev s)).

(** [s.strip()] *)
Definition strip (s : str) : str := rstrip (lstrip s).

Fixpoint last_char (s : str) : option char :=
  match s with
  | [] => None
  | [c] => Some c
  | _ :: s' => last_char s'
  end.

End Py.

(* ------------------------------------------------------------------ *)
(** ** Regular expressions

    A backtracking matcher for the fragment of [re] the program uses:
    literals, greedy [*] and [+] over a character class, one capture
    group, and [$].  A pattern is the list of its items in order; the
    matcher tries the greedy choice first and falls back, as [re] does. *)

Module Re.
Import Py.

Inductive item :=
| Lit (c : char)                (* a literal character *)
| Star (p : char -> bool)       (* greedy  [class]*  *)
| Plus (p : char -> bool)       (* greedy  [class]+  *)
| GOpen                         (* "(" of group 1 *)
| GClose                        (* ")" of group 1 *)
| Eol.                          (* "$" without MULTILINE *)

Definition pattern := list item.

(** A match object: the text left after the match, and the text left at
    the moment group 1 was opened and closed (absent when the group took
    no part in the match). *)
Record rmatch := {
  m_rest : str;
  m_open : option str;
  m_close : option str
}.

(** Greedy repetition of a character class, then the continuation [k];
    when [k] fails after the longest run, shorter runs are tried. *)
Fixpoint star (p : char -> bool) (k : str -> option rmatch) (s : str)
  : option rmatch :=
  match s with
  | c :: s' =>
      if p c then
        match star p k s' with
        | Some m => Some m
        | None => k s
        end
      else k s
  | [] => k []
  end.

Fixpoint run (pat : pattern) (go gc : option str) (s : str)
  : option rmatch :=
  match pat with
  | [] => Some {| m_rest := s; m_open := go; m_close := gc |}
  | Lit c :: pat' =>
      match s with
      | d :: s' => if (d =? c)%N then run pat' go gc s' else None
      | [] => None
      end
  | Star p :: pat' => star p (run pat' go gc) s
  | Plus p :: pat' =>
      match s with
      | d :: s' => if p d then star p (run pat' go gc) s' else None
      | [] => None
      end
  | GOpen :: pat' => run pat' (Some s) gc s
  | GClose :: pat' => run pat' go (Some s) s
  | Eol :: pat' =>
      match s with
      | [] => run pat' go gc s
      | [c] => if (c =? LF)%N then run pat' go gc s else None
      | _ => None
      end
  end.

(** [pattern.match(s)]: a match anchored at the start of [s].  (A leading
    [^] adds nothing to an anchored match and is not an item.) *)
Definition re_match (pat : pattern) (s : str) : option rmatch :=
  run pat None None s.

(** [m.group(1)]: the text between the two marks, [None] when the group
    took no part. *)
Definition group1 (m : rmatch) : option str :=
  match m_open m, m_close m with
  | Some a, Some b => Some (firstn (length a - length b) a)
  | _, _ => None
  end.

(** [re.sub(pat, repl, s)] for a pattern that matches no empty string and
    a replacement without group references: the leftmost match is
    replaced and the scan resumes after it; a character at which nothing
    matches is copied.  [fuel] bounds the number of scan steps;
    [length s] steps always suffice, since every step consumes at least
    one character (lemma [sub_loop_fuel] for the pattern of the
    program). *)
Fixpoint sub_loop (pat : pattern) (repl : str) (fuel : nat) (s : str)
  : str :=
  match fuel with
  | O => s
  | S fuel' =>
      match s with
      | [] => []
      | c :: s' =>
          match re_match pat s with
          | Some m => repl ++ sub_loop pat repl fuel' (m_rest m)
          | None => c :: sub_loop pat repl fuel' s'
          end
      end
  end.

Definition re_sub (pat : pattern) (repl : str) (s : str) : str :=
  sub_loop pat repl (length s) s.

End Re.

(* ------------------------------------------------------------------ *)
(** ** Dictionaries and exceptions *)

Module Dict.
Import Py.

(** A [dict] with [str] keys, in insertion order. *)
Definition dict := list (string * str).

Fixpoint getitem (d : dict) (k : string) : option str :=
  match d with
  | [] => None
  | (k', v) :: d' => if String.eqb k' k then Some v else getitem d' k
  end.

(** [d[k] = v]: an existing key keeps its place, a new one goes last. *)
Fixpoint setitem (d : dict) (k : string) (v : str) : dict :=
  match d with
  | [] => [(k, v)]
  | (k', v') :: d' =>
      if String.eqb k' k then (k', v) :: d' else (k', v') :: setitem d' k v
  end.

(** The truth value of a dictionary: it is not empty. *)
Definition truthy (d : dict) : bool :=
  match d with [] => false | _ :: _ => true end.

End Dict.

Inductive exn :=
| KeyError (key : string)
| AttributeError (what : string).

Inductive result (A : Type) :=
| Ok (a : A)
| Raise (e : exn).

Arguments Ok {A} a.
Arguments Raise {A} e.

Definition bind {A B : Type} (r : result A) (k : A -> result B)
  : result B :=
  match r with
  | Ok a => k a
  | Raise e => Raise e
  end.

Notation "x <- r ;; k" := (bind r (fun x => k))
  (at level 61, r at next level, right associativity).

(* ------------------------------------------------------------------ *)
(** ** The program *)

Import Py Re Dict.

(** [d[k]] as an expression: [KeyError] when the key is absent. *)
Definition subscript (d : dict) (k : string) : result str :=
  match getitem d k with
  | Some v => Ok v
  | None => Raise (KeyError k)
  end.

(** [r'^##\s*(.+)$'] (line 38) *)
Definition header_pattern : pattern :=
  [Lit HASH; Lit HASH; Star isspace; GOpen; Plus dot; GClose; Eol].

(** [r'\n\s*\n'] (lines 53 and 71) *)
Definition blank_pattern : pattern :=
  [Lit LF; Star isspace; Lit LF].

(** Lines 52-53 and 70-71: [content.strip()], then
    [re.sub(r'\n\s*\n', '\n\n', ...)]. *)
Definition clean (content : str) : str :=
  re_sub blank_pattern [LF; LF] (strip content).

(** Lines 52-55 and 70-73: clean the content of the open section and
    append the section to the list. *)
Definition close_section (sections : list dict) (current_section : dict)
  : result (list dict) :=
  content <- subscript current_section "content"%string ;;
  Ok (sections ++ [setitem current_section "content"%string (clean content)]).

(** [match.group(1).strip()] (line 58); a group that took no part is
    [None], which has no [strip]. *)
Definition group1_strip (m : rmatch) : result str :=
  match group1 m with
  | Some g => Ok (strip g)
  | None => Raise (AttributeError "strip"%string)
  end.

(** One turn of the loop of lines 40-66 on the pair
    ([sections], [current_section]). *)
Definition step (st : list dict * dict) (line : str)
  : result (list dict * dict) :=
  let '(sections, current_section) := st in
  match re_match header_pattern line with
  | Some m =>
      sections' <- (if truthy current_section
                    then close_section sections current_section
                    else Ok sections) ;;
      title <- group1_strip m ;;
      Ok (sections', [("title"%string, title); ("content"%string, [])])
  | None =>
      if truthy current_section then
        content <- subscript current_section "content"%string ;;
        Ok (sections,
            setitem current_section "content"%string (content ++ line ++ [LF]))
      else Ok st
  end.

Fixpoint for_lines (lines : list str) (st : list dict * dict)
  : result (list dict * dict) :=
  match lines with
  | [] => Ok st
  | line :: lines' => st' <- step st line ;; for_lines lines' st'
  end.

(** Lines 68-75: the section still open after the last line. *)
Definition after_loop (st : list dict * dict) : result (list dict) :=
  let '(sections, current_section) := st in
  if truthy current_section
  then close_section sections current_section
  else Ok sections.

Definition convert_markdown_to_json (md_content : str)
  : result (list dict) :=
  let lines := splitlines md_content in
  st <- for_lines lines ([], []) ;;
  after_loop st.

(** The dictionary of a finished section. *)
Definition section (title content : str) : dict :=
  [("title"%string, title); ("content"%string, content)].

(** Whether a line matches the header pattern. *)
Definition is_header (line : str) : bool :=
  match re_match header_pattern line with
  | Some _ => true
  | None => false
  end.

(* ------------------------------------------------------------------ *)
(** ** Vocabulary of the statements

    Documents written line by line, the blocks of a document, and the
    shape of a cleaned content. *)

(** ["\n".join(ls)], to write documents down. *)
Fixpoint join_lines (ls : list str) : str :=
  match ls with
  | [] => []
  | [l] => l
  | l :: ls' => l ++ LF :: join_lines ls'
  end.

(** A string without a newline: every character is in the class [.]. *)
Definition plain (s : str) : bool := forallb dot s.

(** The title a header line gives: the text after the marker, stripped. *)
Definition title_of (line : str) : str := strip (skipn 2 line).

Definition no_header (ls : list str) : bool :=
  forallb (fun l => negb (is_header l)) ls.

(** The text the loop accumulates from the lines of a body. *)
Definition body_text (body : list str) : str :=
  concat (map (fun l => l ++ [LF]) body).

(** The lines of a block: its header line, then its body. *)
Definition block_lines (b : str * list str) : list str := fst b :: snd b.

(** The section a block gives. *)
Definition block_section (b : str * list str) : dict :=
  section (title_of (fst b)) (clean (body_text (snd b))).

Definition well_formed_block (b : str * list str) : bool :=
  is_header (fst b) && no_header (snd b).

(** [re.sub(r'\n\s*\n', '\n\n', s)] *)
Definition collapse (s : str) : str := re_sub blank_pattern [LF; LF] s.

(** The whitespace [s] starts with holds no newline. *)
Fixpoint quiet (s : str) : bool :=
  match s with
  | [] => true
  | c :: s' => if isspace c then negb (c =? LF)%N && quiet s' else true
  end.

(** Every newline is followed by text on its own line, or by exactly one
    more newline and then text. *)
Fixpoint collapsed (t : str) : bool :=
  match t with
  | [] => true
  | c :: t' =>
      (if (c =? LF)%N
       then quiet t'
            || match t' with
               | d :: t'' => (d =? LF)%N && quiet t''
               | [] => false
               end
       else true)
      && collapsed t'
  end.

(* ------------------------------------------------------------------ *)
(** ** The loop as a function of the lines

    [collect cur lines] is what the loop appends to [sections] from a
    state whose open section is [cur] (its title and the content
    accumulated so far), followed by the part after the loop. *)

Definition cur_dict (cur : option (str * str)) : dict :=
  match cur with
  | Some (t, c) => section t c
  | None => []
  end.

Definition flush (cur : option (str * str)) : list dict :=
  match cur with
  | Some (t, c) => [section t (clean c)]
  | None => []
  end.

Definition feed (line : str) (cur : option (str * str))
  : option (str * str) :=
  match cur with
  | Some (t, c) => Some (t, c ++ line ++ [LF])
  | None => None
  end.

Fixpoint collect (cur : option (str * str)) (lines : list str)
  : list dict :=
  match lines with
  | [] => flush cur
  | l :: ls =>
      if is_header l
      then flush cur ++ collect (Some (title_of l, [])) ls
      else collect (feed l cur) ls
  end.

(* ------------------------------------------------------------------ *)
(** ** The two patterns, part by part *)

(** Where group 1 starts in the text after the marker: after the
    whitespace [\s*] could take while leaving [.+] one character. *)
Fixpoint capture_start (s : str) : str :=
  match s with
  | c :: ((_ :: _) as s') => if isspace c then capture_start s' else s
  | _ => s
  end.

(** The pattern after its first newline: [\s*\n]. *)
Definition blank_end (s : str) : option rmatch :=
  star isspace (run [Lit LF] None None) s.

(* ------------------------------------------------------------------ *)
(** ** Lines *)

Lemma isspace_LF : isspace LF = true.
Proof. reflexivity. Qed.

Lemma isspace_dot c : isspace c = false -> dot c = true.
Proof.
  unfold dot. destruct (N.eqb_spec c LF) as [->|]; [discriminate|reflexivity].
Qed.

Lemma linebreak_dot c : is_linebreak c = false -> dot c = true.
Proof.
  unfold dot. destruct (N.eqb_spec c LF) as [->|]; [discriminate|reflexivity].
Qed.

Lemma splitlines_plain_le n :
  forall s, length s <= n -> Forall (fun l => plain l = true) (splitlines s).
Proof.
  induction n as [|n IH]; intros [|c s'] Hn; simpl in *;
    try constructor; try lia.
  destruct (is_linebreak c) eqn:Ec.
  - constructor; [reflexivity|].
    destruct s' as [|d s'']; [constructor|].
    destruct ((c =? CR)%N && (d =? LF)%N); apply IH; simpl in *; lia.
  - assert (Hs' : Forall (fun l => plain l = true) (splitlines s'))
      by (apply IH; lia).
    apply linebreak_dot in Ec.
    destruct (splitlines s') as [|l ls].
    + constructor; [|constructor]. unfold plain; simpl. now rewrite Ec.
    + inversion Hs'; subst. constructor; [|assumption].
      unfold plain in *; simpl. now rewrite Ec.
Qed.

Lemma splitlines_plain s : Forall (fun l => plain l = true) (splitlines s).
Proof. apply (splitlines_plain_le (length s)). lia. Qed.

(* ------------------------------------------------------------------ *)
(** ** strip *)

Lemma lstrip_space_only s :
  forallb isspace s = true -> lstrip s = [].
Proof.
  induction s as [|c s IH]; simpl; [reflexivity|].
  destruct (isspace c); simpl; [assumption|discriminate].
Qed.

Lemma lstrip_app_space s w :
  forallb isspace w = true -> lstrip (w ++ s) = lstrip s.
Proof.
  induction w as [|c w IH]; simpl; [reflexivity|].
  destruct (isspace c); simpl; [assumption|discriminate].
Qed.

Lemma lstrip_head s c : hd_error (lstrip s) = Some c -> isspace c = false.
Proof.
  induction s as [|d s IH]; simpl; [discriminate|].
  destruct (isspace d) eqn:Ed; [assumption|].
  simpl. intros [= <-]. assumption.
Qed.

Lemma lstrip_fixed s :
  (forall c, hd_error s = Some c -> isspace c = false) -> lstrip s = s.
Proof.
  destruct s as [|c s]; simpl; [reflexivity|].
  intros H. now rewrite (H c eq_refl).
Qed.

Lemma last_char_app s c : last_char (s ++ [c]) = Some c.
Proof.
  induction s as [|d s IH]; simpl; [reflexivity|].
  destruct (s ++ [c]) eqn:E; [now destruct s|assumption].
Qed.

Lemma last_char_rev s : last_char s = hd_error (rev s).
Proof.
  destruct (rev s) as [|c r] eqn:E.
  - apply (f_equal (@rev _)) in E. rewrite rev_involutive in E. now subst.
  - apply (f_equal (@rev _)) in E. rewrite rev_involutive in E. subst.
    simpl. apply last_char_app.
Qed.

Lemma last_char_cons c s : s <> [] -> last_char (c :: s) = last_char s.
Proof. destruct s; [congruence|reflexivity]. Qed.

Lemma last_char_app_r s t : t <> [] -> last_char (s ++ t) = last_char t.
Proof.
  intros Ht. induction s as [|c s IH]; simpl; [reflexivity|].
  destruct (s ++ t) eqn:E.
  - apply app_eq_nil in E. tauto.
  - assumption.
Qed.

Lemma rstrip_last s c : last_char (rstrip s) = Some c -> isspace c = false.
Proof.
  unfold rstrip. rewrite last_char_rev, rev_involutive. apply lstrip_head.
Qed.

Lemma lstrip_snoc_nonspace s c :
  isspace c = false -> lstrip (s ++ [c]) = lstrip s ++ [c].
Proof.
  intros Hc. induction s as [|d s IH]; simpl.
  - now rewrite Hc.
  - destruct (isspace d); [assumption|reflexivity].
Qed.

Lemma rstrip_cons_nonspace c s :
  isspace c = false -> rstrip (c :: s) = c :: rstrip s.
Proof.
  intros Hc. unfold rstrip. simpl.
  rewrite lstrip_snoc_nonspace by assumption.
  now rewrite rev_app_distr.
Qed.

Lemma rstrip_space_only s : forallb isspace s = true -> rstrip s = [].
Proof.
  intros H. unfold rstrip. rewrite lstrip_space_only; [reflexivity|].
  rewrite forallb_forall in *. intros x Hx. apply H. now apply in_rev.
Qed.

Lemma strip_space_only s : forallb isspace s = true -> strip s = [].
Proof.
  intros H. unfold strip. now rewrite lstrip_space_only.
Qed.

Lemma strip_app_space w s :
  forallb isspace w = true -> strip (w ++ s) = strip s.
Proof. intros H. unfold strip. now rewrite lstrip_app_space. Qed.

(** What [strip] leaves neither starts nor ends with whitespace. *)
Lemma strip_head s c : hd_error (strip s) = Some c -> isspace c = false.
Proof.
  unfold strip. destruct (lstrip s) as [|d t] eqn:E; [discriminate|].
  assert (Hd : isspace d = false) by (apply (lstrip_head s); now rewrite E).
  rewrite rstrip_cons_nonspace by assumption. simpl. now intros [= <-].
Qed.

Lemma strip_last s c : last_char (strip s) = Some c -> isspace c = false.
Proof. apply rstrip_last. Qed.

(* ------------------------------------------------------------------ *)
(** ** The header pattern on a line *)

Lemma run_Lit c pat go gc d s :
  run (Lit c :: pat) go gc (d :: s)
  = if (d =? c)%N then run pat go gc s else None.
Proof. reflexivity. Qed.

Lemma run_Star p pat go gc s :
  run (Star p :: pat) go gc s = star p (run pat go gc) s.
Proof. reflexivity. Qed.

Lemma run_Plus p pat go gc d s :
  run (Plus p :: pat) go gc (d :: s)
  = if p d then star p (run pat go gc) s else None.
Proof. reflexivity. Qed.

Lemma run_GOpen pat go gc s :
  run (GOpen :: pat) go gc s = run pat (Some s) gc s.
Proof. reflexivity. Qed.

Lemma tail_match_plain s go gc :
  plain s = true ->
  star dot (run [GClose; Eol] go gc) s
  = Some {| m_rest := []; m_open := go; m_close := Some [] |}.
Proof.
  induction s as [|c s IH]; intros Hs.
  - reflexivity.
  - unfold plain in Hs. simpl in Hs. apply andb_prop in Hs as [Hc Hs].
    cbn [star]. rewrite Hc, (IH Hs). reflexivity.
Qed.

Lemma group_match_plain s go gc :
  plain s = true ->
  run [GOpen; Plus dot; GClose; Eol] go gc s
  = match s with
    | [] => None
    | _ :: _ => Some {| m_rest := []; m_open := Some s; m_close := Some [] |}
    end.
Proof.
  intros Hs. destruct s as [|c s]; [reflexivity|].
  unfold plain in Hs. simpl in Hs. apply andb_prop in Hs as [Hc Hs].
  rewrite run_GOpen, run_Plus, Hc. now apply tail_match_plain.
Qed.

Lemma ws_match_plain s :
  plain s = true ->
  star isspace (run [GOpen; Plus dot; GClose; Eol] None None) s
  = match s with
    | [] => None
    | _ :: _ => Some {| m_rest := []; m_open := Some (capture_start s);
                        m_close := Some [] |}
    end.
Proof.
  induction s as [|c s IH]; intros Hs.
  - reflexivity.
  - assert (Hs' : plain s = true).
    { unfold plain in *. simpl in Hs. now apply andb_prop in Hs. }
    cbn [star]. rewrite (IH Hs'), (group_match_plain _ _ _ Hs).
    destruct s as [|d s]; simpl; destruct (isspace c); reflexivity.
Qed.

Lemma header_match_plain line :
  plain line = true ->
  re_match header_pattern line
  = match line with
    | a :: b :: c :: r =>
        if (a =? HASH)%N && (b =? HASH)%N
        then Some {| m_rest := []; m_open := Some (capture_start (c :: r));
                     m_close := Some [] |}
        else None
    | _ => None
    end.
Proof.
  intros Hl. unfold re_match, header_pattern.
  destruct line as [|a [|b rest]].
  - reflexivity.
  - cbn. now destruct (a =? HASH)%N.
  - rewrite !run_Lit, run_Star.
    assert (Hr : plain rest = true).
    { unfold plain in *. simpl in Hl.
      apply andb_prop in Hl as [_ Hl]. now apply andb_prop in Hl. }
    rewrite (ws_match_plain _ Hr).
    destruct (a =? HASH)%N, (b =? HASH)%N, rest; try reflexivity.
Qed.

Lemma is_header_plain line :
  plain line = true ->
  is_header line
  = match line with
    | a :: b :: _ :: _ => (a =? HASH)%N && (b =? HASH)%N
    | _ => false
    end.
Proof.
  intros Hl. unfold is_header. rewrite (header_match_plain _ Hl).
  destruct line as [|a [|b [|c r]]]; try reflexivity.
  now destruct ((a =? HASH)%N && (b =? HASH)%N).
Qed.

Lemma strip_capture_start s : strip (capture_start s) = strip s.
Proof.
  induction s as [|c s IH]; [reflexivity|].
  destruct s as [|d s]; [reflexivity|].
  change (capture_start (c :: d :: s))
    with (if isspace c then capture_start (d :: s) else c :: d :: s).
  destruct (isspace c) eqn:Ec; [|reflexivity].
  rewrite IH. unfold strip. cbn [lstrip]. now rewrite Ec.
Qed.

(** On a line, a match of the header pattern captures a text whose
    stripped form is the stripped text after the marker. *)
Lemma header_match_title line :
  plain line = true ->
  match re_match header_pattern line with
  | Some m => is_header line = true /\ group1_strip m = Ok (title_of line)
  | None => is_header line = false
  end.
Proof.
  intros Hl. unfold is_header. rewrite (header_match_plain _ Hl).
  destruct line as [|a [|b [|c r]]]; try reflexivity.
  destruct ((a =? HASH)%N && (b =? HASH)%N); [|reflexivity].
  split; [reflexivity|].
  unfold group1_strip, group1, title_of. cbn [m_open m_close skipn length].
  rewrite Nat.sub_0_r, firstn_all, strip_capture_start. reflexivity.
Qed.

(* ------------------------------------------------------------------ *)
(** ** The loop computes [collect] *)

Lemma close_flush secs cur :
  (if truthy (cur_dict cur) then close_section secs (cur_dict cur)
   else Ok secs) = Ok (secs ++ flush cur).
Proof.
  destruct cur as [[t c]|]; simpl.
  - reflexivity.
  - now rewrite app_nil_r.
Qed.

Lemma for_lines_collect lines :
  Forall (fun l => plain l = true) lines ->
  forall secs cur,
    (st <- for_lines lines (secs, cur_dict cur) ;; after_loop st)
    = Ok (secs ++ collect cur lines).
Proof.
  induction 1 as [|l ls Hl Hls IH]; intros secs cur.
  - cbn [for_lines bind after_loop collect]. apply close_flush.
  - cbn [for_lines collect]. unfold step.
    pose proof (header_match_title l Hl) as Hm.
    destruct (re_match header_pattern l) as [m|].
    + destruct Hm as [Hh Ht]. rewrite Hh, close_flush, Ht.
      cbn [bind]. rewrite (IH _ (Some (title_of l, []))).
      now rewrite app_assoc.
    + rewrite Hm. destruct cur as [[t c]|]; cbn -[for_lines after_loop].
      * apply (IH secs (Some (t, c ++ l ++ [LF]))).
      * apply (IH secs None).
Qed.

(** The function returns what [collect] computes from the lines. *)
Lemma convert_collect md :
  convert_markdown_to_json md = Ok (collect None (splitlines md)).
Proof.
  unfold convert_markdown_to_json.
  apply (for_lines_collect _ (splitlines_plain md) [] None).
Qed.

(* ------------------------------------------------------------------ *)
(** ** The blank-line pattern and its substitution *)

Lemma blank_end_nil : blank_end [] = None.
Proof. reflexivity. Qed.

Lemma blank_end_cons c s :
  blank_end (c :: s)
  = if isspace c then
      match blank_end s with
      | Some m => Some m
      | None =>
          if (c =? LF)%N
          then Some {| m_rest := s; m_open := None; m_close := None |}
          else None
      end
    else None.
Proof.
  unfold blank_end. cbn [star]. rewrite run_Lit.
  destruct (isspace c) eqn:Ec; [reflexivity|].
  destruct (N.eqb_spec c LF) as [->|]; [discriminate|reflexivity].
Qed.

Lemma blank_match_cons c s :
  re_match blank_pattern (c :: s)
  = if (c =? LF)%N then blank_end s else None.
Proof. reflexivity. Qed.

Lemma quiet_blank_end s :
  quiet s = match blank_end s with Some _ => false | None => true end.
Proof.
  induction s as [|c s IH]; [reflexivity|].
  rewrite blank_end_cons. cbn [quiet]. rewrite IH.
  destruct (isspace c); [|reflexivity].
  destruct (blank_end s).
  - apply andb_false_r.
  - rewrite andb_true_r. now destruct (c =? LF)%N.
Qed.

(** A match ends at the last newline of the whitespace that follows the
    first one. *)
Lemma blank_end_some s m :
  blank_end s = Some m ->
  exists w, s = w ++ LF :: m_rest m
            /\ forallb isspace w = true /\ quiet (m_rest m) = true.
Proof.
  revert m. induction s as [|c s IH]; intros m; [discriminate|].
  rewrite blank_end_cons.
  destruct (isspace c) eqn:Ec; [|discriminate].
  destruct (blank_end s) as [m'|] eqn:Es.
  - intros [= <-]. destruct (IH m' eq_refl) as (w & -> & Hw & Hq).
    exists (c :: w). simpl. now rewrite Ec.
  - destruct (N.eqb_spec c LF) as [->|]; [|discriminate].
    intros [= <-]. exists []. cbn [m_rest]. repeat split.
    now rewrite quiet_blank_end, Es.
Qed.

Lemma blank_end_shorter s m :
  blank_end s = Some m -> length (m_rest m) < length s.
Proof.
  intros H. destruct (blank_end_some _ _ H) as (w & E & _).
  rewrite E, length_app. simpl. lia.
Qed.

(** With as many steps as the string has characters the scan of [re.sub]
    is complete: more steps change nothing. *)
Lemma sub_loop_fuel n :
  forall m s, length s <= n -> length s <= m ->
    sub_loop blank_pattern [LF; LF] n s = sub_loop blank_pattern [LF; LF] m s.
Proof.
  induction n as [|n IH]; intros m s Hn Hm.
  - destruct s; [|simpl in Hn; lia]. now destruct m.
  - destruct s as [|c s]; [now destruct m|].
    destruct m as [|m]; [simpl in Hm; lia|].
    simpl in Hn, Hm. cbn [sub_loop].
    rewrite blank_match_cons. destruct (c =? LF)%N.
    + destruct (blank_end s) as [r|] eqn:Es.
      * apply blank_end_shorter in Es. f_equal. apply IH; lia.
      * f_equal. apply IH; lia.
    + f_equal. apply IH; lia.
Qed.

Lemma collapse_nil : collapse [] = [].
Proof. reflexivity. Qed.

Lemma collapse_cons c s :
  collapse (c :: s)
  = match re_match blank_pattern (c :: s) with
    | Some m => LF :: LF :: collapse (m_rest m)
    | None => c :: collapse s
    end.
Proof.
  unfold collapse, re_sub. cbn [length sub_loop].
  rewrite blank_match_cons. destruct (c =? LF)%N.
  - destruct (blank_end s) as [r|] eqn:Es.
    + apply blank_end_shorter in Es. cbn [app]. do 2 f_equal.
      apply sub_loop_fuel; lia.
    + reflexivity.
  - reflexivity.
Qed.

Lemma collapse_other c s :
  (c =? LF)%N = false -> collapse (c :: s) = c :: collapse s.
Proof. intros H. now rewrite collapse_cons, blank_match_cons, H. Qed.

Lemma collapse_LF_quiet s :
  quiet s = true -> collapse (LF :: s) = LF :: collapse s.
Proof.
  intros H. rewrite collapse_cons, blank_match_cons. cbn [N.eqb LF Pos.eqb].
  rewrite quiet_blank_end in H. now destruct (blank_end s).
Qed.

Lemma collapse_LF_match s m :
  blank_end s = Some m -> collapse (LF :: s) = LF :: LF :: collapse (m_rest m).
Proof.
  intros H. rewrite collapse_cons, blank_match_cons. cbn [N.eqb LF Pos.eqb].
  now rewrite H.
Qed.

Lemma quiet_collapse s : quiet s = true -> quiet (collapse s) = true.
Proof.
  induction s as [|c s IH]; [reflexivity|]. cbn [quiet].
  destruct (isspace c) eqn:Ec.
  - intros H. apply andb_prop in H as [Hc Hs].
    apply negb_true_iff in Hc. rewrite (collapse_other _ _ Hc).
    cbn [quiet]. now rewrite Ec, Hc, (IH Hs).
  - intros _. rewrite collapse_other.
    + cbn [quiet]. now rewrite Ec.
    + destruct (N.eqb_spec c LF) as [->|]; [discriminate|reflexivity].
Qed.

(** Induction on the length of a string. *)
Lemma str_length_ind (P : str -> Prop) :
  (forall s, (forall t, length t < length s -> P t) -> P s) ->
  forall s, P s.
Proof.
  intros H s. remember (length s) as n eqn:En.
  revert s En. induction n as [n IH] using lt_wf_ind.
  intros s ->. apply H. intros t Ht. now apply (IH (length t)).
Qed.

Lemma collapse_collapsed s : collapsed (collapse s) = true.
Proof.
  induction s as [s IH] using str_length_ind.
  destruct s as [|c s]; [reflexivity|].
  destruct (N.eqb_spec c LF) as [->|Hc].
  - destruct (blank_end s) as [m|] eqn:Es.
    + rewrite (collapse_LF_match _ _ Es).
      pose proof (blank_end_shorter _ _ Es) as Hlen.
      destruct (blank_end_some _ _ Es) as (_ & _ & _ & Hq).
      apply quiet_collapse in Hq.
      assert (Hr : collapsed (collapse (m_rest m)) = true)
        by (apply IH; simpl; lia).
      cbn [collapsed N.eqb LF Pos.eqb]. cbn [quiet].
      rewrite isspace_LF, Hq, Hr. reflexivity.
    + assert (Hq : quiet s = true) by now rewrite quiet_blank_end, Es.
      rewrite (collapse_LF_quiet _ Hq).
      cbn [collapsed N.eqb LF Pos.eqb].
      rewrite (quiet_collapse _ Hq). apply IH. simpl; lia.
  - apply N.eqb_neq in Hc. rewrite (collapse_other _ _ Hc).
    cbn [collapsed]. rewrite Hc. apply IH. simpl; lia.
Qed.

Lemma collapsed_tail c t : collapsed (c :: t) = true -> collapsed t = true.
Proof. cbn [collapsed]. intros H. now apply andb_prop in H. Qed.

Lemma collapsed_app_r pre t :
  collapsed (pre ++ t) = true -> collapsed t = true.
Proof.
  induction pre as [|c pre IH]; [trivial|].
  intros H. apply IH. now apply collapsed_tail in H.
Qed.

(** On a collapsed string the substitution changes nothing. *)
Lemma collapse_fixed t : collapsed t = true -> collapse t = t.
Proof.
  induction t as [t IH] using str_length_ind.
  destruct t as [|c t]; [reflexivity|].
  intros H. pose proof (collapsed_tail _ _ H) as Ht.
  destruct (N.eqb_spec c LF) as [->|Hc].
  - cbn [collapsed N.eqb LF Pos.eqb] in H.
    apply andb_prop in H as [H _]. apply orb_prop in H as [Hq|H].
    + rewrite (collapse_LF_quiet _ Hq). f_equal. apply IH; [simpl; lia|easy].
    + destruct t as [|d t]; [discriminate|].
      apply andb_prop in H as [Hd Hq]. apply N.eqb_eq in Hd. subst d.
      assert (Es : blank_end (LF :: t)
                   = Some {| m_rest := t; m_open := None; m_close := None |}).
      { rewrite blank_end_cons, isspace_LF.
        rewrite quiet_blank_end in Hq. now destruct (blank_end t). }
      rewrite (collapse_LF_match _ _ Es). cbn [m_rest]. do 2 f_equal.
      apply IH; [simpl; lia|]. now apply collapsed_tail in Ht.
  - apply N.eqb_neq in Hc. rewrite (collapse_other _ _ Hc). f_equal.
    apply IH; [simpl; lia|easy].
Qed.

Lemma quiet_space_LF w post :
  forallb isspace w = true -> quiet (w ++ LF :: post) = false.
Proof.
  induction w as [|c w IH]; [reflexivity|].
  simpl. destruct (isspace c); [|discriminate].
  intros H. rewrite (IH H). apply andb_false_r.
Qed.

(** In a collapsed string two newlines with only whitespace between them
    are adjacent. *)
Lemma collapsed_blank_run pre w post :
  collapsed (pre ++ LF :: w ++ LF :: post) = true ->
  forallb isspace w = true -> w = [].
Proof.
  intros H Hw. apply collapsed_app_r in H.
  cbn [collapsed N.eqb LF Pos.eqb] in H.
  apply andb_prop in H as [H _].
  rewrite (quiet_space_LF _ post Hw) in H. cbn [orb] in H.
  destruct w as [|d w]; [reflexivity|]. exfalso.
  cbn [app] in H. apply andb_prop in H as [_ H].
  simpl in Hw. apply andb_prop in Hw as [_ Hw].
  now rewrite (quiet_space_LF _ post Hw) in H.
Qed.

Lemma collapse_head s : hd_error (collapse s) = hd_error s.
Proof.
  destruct s as [|c s]; [reflexivity|].
  rewrite collapse_cons, blank_match_cons.
  destruct (N.eqb_spec c LF) as [->|]; [|reflexivity].
  now destruct (blank_end s).
Qed.

Lemma collapse_nonempty s : s <> [] -> collapse s <> [].
Proof.
  intros Hs E. pose proof (collapse_head s) as H. rewrite E in H.
  destruct s; [congruence|discriminate].
Qed.

Lemma collapse_last s : last_char (collapse s) = last_char s.
Proof.
  induction s as [s IH] using str_length_ind.
  destruct s as [|c s]; [reflexivity|].
  assert (Htail : last_char (c :: collapse s) = last_char (c :: s)).
  { destruct s as [|d s]; [reflexivity|].
    rewrite (last_char_cons c (d :: s)) by easy.
    rewrite (last_char_cons c (collapse (d :: s)))
      by (now apply collapse_nonempty).
    apply IH. simpl; lia. }
  destruct (N.eqb_spec c LF) as [->|Hc].
  - destruct (blank_end s) as [m|] eqn:Es.
    + rewrite (collapse_LF_match _ _ Es).
      pose proof (blank_end_shorter _ _ Es) as Hlen.
      destruct (blank_end_some _ _ Es) as (w & E & _).
      rewrite E. clear E.
      destruct (m_rest m) as [|d r] eqn:Er.
      * rewrite collapse_nil.
        change (LF :: w ++ [LF]) with ((LF :: w) ++ [LF]).
        now rewrite last_char_app.
      * replace (LF :: w ++ LF :: d :: r) with ((LF :: w ++ [LF]) ++ d :: r)
          by (simpl; now rewrite <- app_assoc).
        rewrite last_char_app_r by easy.
        change (LF :: LF :: collapse (d :: r))
          with ([LF; LF] ++ collapse (d :: r)).
        rewrite last_char_app_r by (now apply collapse_nonempty).
        apply IH. simpl in *; lia.
    + rewrite collapse_LF_quiet by now rewrite quiet_blank_end, Es.
      exact Htail.
  - apply N.eqb_neq in Hc. rewrite (collapse_other _ _ Hc). exact Htail.
Qed.

(* ------------------------------------------------------------------ *)
(** ** Cleaning a content *)

Lemma clean_collapse s : clean s = collapse (strip s).
Proof. reflexivity. Qed.

Lemma strip_fixed t :
  (forall c, hd_error t = Some c -> isspace c = false) ->
  (forall c, last_char t = Some c -> isspace c = false) ->
  strip t = t.
Proof.
  intros Hh Hl. unfold strip. rewrite (lstrip_fixed _ Hh).
  unfold rstrip. rewrite lstrip_fixed, rev_involutive; [reflexivity|].
  intros c Hc. apply Hl. now rewrite last_char_rev.
Qed.

Lemma clean_head s c : hd_error (clean s) = Some c -> isspace c = false.
Proof. rewrite clean_collapse, collapse_head. apply strip_head. Qed.

Lemma clean_last s c : last_char (clean s) = Some c -> isspace c = false.
Proof. rewrite clean_collapse, collapse_last. apply strip_last. Qed.

Lemma clean_collapsed s : collapsed (clean s) = true.
Proof. apply collapse_collapsed. Qed.

Lemma clean_space_only s : forallb isspace s = true -> clean s = [].
Proof. intros H. rewrite clean_collapse, strip_space_only; easy. Qed.

(* ------------------------------------------------------------------ *)
(** ** Facts about [collect] *)

Lemma collect_header cur h rest :
  is_header h = true ->
  collect cur (h :: rest) = flush cur ++ collect (Some (title_of h, [])) rest.
Proof. intros H. cbn [collect]. now rewrite H. Qed.

Lemma collect_body t c body rest :
  no_header body = true ->
  collect (Some (t, c)) (body ++ rest)
  = collect (Some (t, c ++ body_text body)) rest.
Proof.
  revert c. induction body as [|l body IH]; intros c H.
  - unfold body_text. simpl. now rewrite app_nil_r.
  - simpl in H. apply andb_prop in H as [Hl H].
    apply negb_true_iff in Hl. cbn [app collect]. rewrite Hl.
    cbn [feed]. rewrite (IH _ H). unfold body_text. simpl.
    now rewrite <- !app_assoc.
Qed.

Lemma collect_leading pre rest :
  no_header pre = true -> collect None (pre ++ rest) = collect None rest.
Proof.
  induction pre as [|l pre IH]; intros H; [reflexivity|].
  simpl in H. apply andb_prop in H as [Hl H].
  apply negb_true_iff in Hl. cbn [app collect]. rewrite Hl. now apply IH.
Qed.

Lemma collect_blocks blocks :
  forallb well_formed_block blocks = true ->
  forall cur,
    collect cur (concat (map block_lines blocks))
    = flush cur ++ map block_section blocks.
Proof.
  induction blocks as [|[h body] bs IH]; intros H cur.
  - simpl. now rewrite app_nil_r.
  - simpl in H. apply andb_prop in H as [Hb H].
    apply andb_prop in Hb as [Hh Hbody]. simpl in Hh, Hbody.
    cbn [map concat block_lines fst snd app].
    rewrite (collect_header _ _ _ Hh), (collect_body _ _ _ _ Hbody).
    now rewrite (IH H).
Qed.

Lemma collect_length lines :
  forall cur,
    length (collect cur lines)
    = length (flush cur) + length (filter is_header lines).
Proof.
  induction lines as [|l ls IH]; intros cur; cbn [collect filter].
  - simpl. lia.
  - destruct (is_header l).
    + rewrite length_app, IH. simpl. lia.
    + rewrite IH. now destruct cur as [[t c]|].
Qed.

Lemma collect_titles lines :
  forall cur,
    map (fun d => getitem d "title"%string) (collect cur lines)
    = map (fun d => getitem d "title"%string) (flush cur)
      ++ map (fun l => Some (title_of l)) (filter is_header lines).
Proof.
  induction lines as [|l ls IH]; intros cur; cbn [collect filter].
  - simpl. now rewrite app_nil_r.
  - destruct (is_header l).
    + rewrite map_app, IH. reflexivity.
    + rewrite IH. now destruct cur as [[t c]|].
Qed.

Lemma collect_forall (P : dict -> Prop) :
  (forall t c, P (section t (clean c))) ->
  forall lines cur, Forall P (collect cur lines).
Proof.
  intros HP.
  assert (Hf : forall cur, Forall P (flush cur)).
  { intros [[t c]|]; simpl; repeat constructor. apply HP. }
  induction lines as [|l ls IH]; intros cur; cbn [collect].
  - apply Hf.
  - destruct (is_header l); [|apply IH].
    apply Forall_app. split; [apply Hf|apply IH].
Qed.

(** The sections before a header line are those of the headers before
    it; the line opens the next one. *)
Lemma collect_upto pre h rest :
  is_header h = true ->
  forall cur,
    exists before,
      collect cur (pre ++ h :: rest)
      = before ++ collect (Some (title_of h, [])) rest
      /\ length before
         = length (flush cur) + length (filter is_header pre).
Proof.
  intros Hh. induction pre as [|l pre IH]; intros cur.
  - exists (flush cur). rewrite app_nil_l, (collect_header _ _ _ Hh).
    simpl. split; [reflexivity|lia].
  - cbn [app collect filter]. destruct (is_header l).
    + destruct (IH (Some (title_of l, []))) as (b & -> & Hb).
      exists (flush cur ++ b). rewrite app_assoc. split; [reflexivity|].
      rewrite length_app, Hb. simpl. lia.
    + destruct (IH (feed l cur)) as (b & -> & Hb).
      exists b. split; [reflexivity|].
      rewrite Hb. now destruct cur as [[t c]|].
Qed.

(** An open section is emitted, under its title. *)
Lemma collect_open t rest :
  forall c, exists content after,
    collect (Some (t, c)) rest = section t content :: after.
Proof.
  induction rest as [|l ls IH]; intros c; cbn [collect].
  - now exists (clean c), [].
  - destruct (is_header l).
    + now exists (clean c), (collect (Some (title_of l, [])) ls).
    + apply IH.
Qed.

Lemma space_line_no_header l : forallb isspace l = true -> is_header l = false.
Proof.
  destruct l as [|c l]; [reflexivity|].
  simpl. intros H. apply andb_prop in H as [Hc _].
  unfold is_header, re_match, header_pattern. rewrite run_Lit.
  destruct (N.eqb_spec c HASH) as [->|]; [discriminate|reflexivity].
Qed.

Lemma space_lines_no_header ls :
  forallb (forallb isspace) ls = true -> no_header ls = true.
Proof.
  induction ls as [|l ls IH]; [reflexivity|].
  simpl. intros H. apply andb_prop in H as [Hl H].
  now rewrite (space_line_no_header _ Hl), (IH H).
Qed.

Lemma space_lines_text ls :
  forallb (forallb isspace) ls = true -> forallb isspace (body_text ls) = true.
Proof.
  induction ls as [|l ls IH]; [reflexivity|].
  simpl. intros H. apply andb_prop in H as [Hl H].
  unfold body_text. simpl. rewrite !forallb_app, Hl. simpl.
  now apply IH.
Qed.

Lemma lstrip_decompose s :
  exists a, s = a ++ lstrip s /\ forallb isspace a = true.
Proof.
  induction s as [|c s (a & E & Ha)]; [now exists []|].
  simpl. destruct (isspace c) eqn:Ec.
  - exists (c :: a). simpl. now rewrite Ec, <- E.
  - now exists [].
Qed.

Lemma rstrip_decompose s :
  exists b, s = rstrip s ++ b /\ forallb isspace b = true.
Proof.
  destruct (lstrip_decompose (rev s)) as (a & E & Ha).
  exists (rev a). split.
  - unfold rstrip. rewrite <- rev_app_distr, <- E. now rewrite rev_involutive.
  - rewrite forallb_forall in *. intros x Hx. apply Ha. now apply in_rev.
Qed.

(** [strip] removes a run of whitespace at each end and nothing else. *)
Lemma strip_decompose s :
  exists a b, s = a ++ strip s ++ b
              /\ forallb isspace a = true /\ forallb isspace b = true.
Proof.
  destruct (lstrip_decompose s) as (a & Ea & Ha).
  destruct (rstrip_decompose (lstrip s)) as (b & Eb & Hb).
  exists a, b. unfold strip. now rewrite <- Eb.
Qed.

(** The lines of every document are a header-free lead followed by
    well-formed blocks. *)
Lemma lines_decompose lines :
  exists pre blocks,
    lines = pre ++ concat (map block_lines blocks)
    /\ no_header pre = true
    /\ forallb well_formed_block blocks = true.
Proof.
  induction lines as [|l ls (pre & blocks & E & Hpre & Hb)].
  - now exists [], [].
  - destruct (is_header l) eqn:Hl.
    + exists [], ((l, pre) :: blocks). simpl. rewrite <- E.
      unfold well_formed_block at 1. simpl. now rewrite Hl, Hpre, Hb.
    + exists (l :: pre), blocks. simpl. now rewrite <- E, Hl, Hpre, Hb.
Qed.

(** Which lines of a document match the header pattern: those that
    start with two '#' characters and go on, whatever comes next. *)
Lemma header_line_shape md l :
  In l (splitlines md) ->
  is_header l = true <-> exists c rest, l = HASH :: HASH :: c :: rest.
Proof.
  intros Hin.
  assert (Hl : plain l = true).
  { pose proof (splitlines_plain md) as H.
    rewrite Forall_forall in H. now apply H. }
  rewrite (is_header_plain _ Hl). split.
  - destruct l as [|a [|b [|c rest]]]; try discriminate.
    intros H. apply andb_prop in H as [Ha Hb].
    apply N.eqb_eq in Ha, Hb. subst. now exists c, rest.
  - intros (c & rest & ->). reflexivity.
Qed.

(* ------------------------------------------------------------------ *)
(** ** Properties of the specification *)

(** C1 (the code departs from the specification).  A line with three
    or more leading '#' characters matches the header pattern: the third
    '#' is taken into the capture group.  Inside a document the line
    "### Sub" closes the open section and opens a new one whose title is
    "# Sub", where the specification, like the docstring of the function,
    has level-2 headers only start a section. *)
Theorem level3_header_opens_section :
  (forall md rest,
      In (HASH :: HASH :: HASH :: rest) (splitlines md) ->
      is_header (HASH :: HASH :: HASH :: rest) = true)
  /\ convert_markdown_to_json
       (join_lines [py "## A"; py "x"; py "### Sub"; py "y"])
     = Ok [section (py "A") (py "x"); section (py "# Sub") (py "y")].
Proof.
  split; [|vm_compute; reflexivity].
  intros md rest Hin. apply (header_line_shape md _ Hin).
  now exists HASH, rest.
Qed.

(** C2.  Every section the function returns has a content that neither
    starts nor ends with a whitespace character, and in which two
    newlines separated by nothing but whitespace are adjacent: a run of
    blank or whitespace-only lines is one empty line.  The body
    "p1\n\n\n\n   \np2" is cleaned to "p1\n\np2". *)
Theorem content_normalized :
  (forall md, exists secs,
      convert_markdown_to_json md = Ok secs
      /\ Forall (fun d => exists t c,
                     d = section t c
                     /\ (forall x, hd_error c = Some x -> isspace x = false)
                     /\ (forall x, last_char c = Some x -> isspace x = false)
                     /\ (forall pre w post,
                            c = pre ++ LF :: w ++ LF :: post ->
                            forallb isspace w = true -> w = []))
                secs)
  /\ clean (join_lines [py "p1"; []; []; []; py "   "; py "p2"])
     = join_lines [py "p1"; []; py "p2"]
  /\ convert_markdown_to_json
       (join_lines [py "## T"; py "p1"; []; []; []; py "   "; py "p2"])
     = Ok [section (py "T") (join_lines [py "p1"; []; py "p2"])].
Proof.
  split; [|split; vm_compute; reflexivity].
  intros md. exists (collect None (splitlines md)).
  split; [apply convert_collect|].
  apply collect_forall. intros t c. exists t, (clean c).
  split; [reflexivity|]. split; [apply clean_head|].
  split; [apply clean_last|].
  intros pre w post E. apply (collapsed_blank_run pre w post).
  rewrite <- E. apply clean_collapsed.
Qed.

(** C3.  The function returns as many sections as the document has lines
    matching the header pattern.  When no line matches the result is
    empty, and the lines before the first header never count: a document
    without them gives the same sections. *)
Theorem section_count md :
  exists secs,
    convert_markdown_to_json md = Ok secs
    /\ length secs = length (filter is_header (splitlines md))
    /\ (filter is_header (splitlines md) = [] -> secs = [])
    /\ (forall pre md',
           splitlines md = pre ++ splitlines md' ->
           no_header pre = true ->
           convert_markdown_to_json md' = Ok secs).
Proof.
  exists (collect None (splitlines md)).
  split; [apply convert_collect|].
  assert (Hlen : length (collect None (splitlines md))
                 = length (filter is_header (splitlines md)))
    by apply (collect_length _ None).
  split; [exact Hlen|]. split.
  - intros E. rewrite E in Hlen. now apply length_zero_iff_nil.
  - intros pre md' E Hpre.
    rewrite E, (collect_leading _ _ Hpre). apply convert_collect.
Qed.

(** C4.  When the lines of a document are a header-free lead followed
    by blocks, each a header line and the header-free lines after it, the
    function returns one section per block, in the order of the blocks;
    the content of each is the cleaned text of the lines of its block,
    the header line left out. *)
Theorem sections_in_order md pre blocks :
  splitlines md = pre ++ concat (map block_lines blocks) ->
  no_header pre = true ->
  forallb well_formed_block blocks = true ->
  convert_markdown_to_json md = Ok (map block_section blocks).
Proof.
  intros E Hpre Hblocks.
  rewrite convert_collect, E, (collect_leading _ _ Hpre).
  now rewrite (collect_blocks _ Hblocks).
Qed.

Lemma sections_in_order_witness :
  convert_markdown_to_json (join_lines [py "## A"; py "x"; py "## B"; py "y"])
  = Ok [section (py "A") (py "x"); section (py "B") (py "y")].
Proof.
  exact (sections_in_order
           (join_lines [py "## A"; py "x"; py "## B"; py "y"])
           []
           [(py "## A", [py "x"]); (py "## B", [py "y"])]
           eq_refl eq_refl eq_refl).
Defined.

(** C5.  A document none of whose lines matches the header pattern gives
    the empty list: every line is dropped. *)
Theorem no_header_no_section md :
  no_header (splitlines md) = true ->
  convert_markdown_to_json md = Ok [].
Proof.
  intros H. rewrite convert_collect.
  rewrite <- (app_nil_r (splitlines md)).
  now rewrite (collect_leading _ [] H).
Qed.

Lemma no_header_no_section_witness :
  convert_markdown_to_json [] = Ok []
  /\ convert_markdown_to_json (join_lines [py "just text"; py "more text"])
     = Ok [].
Proof.
  split.
  - exact (no_header_no_section [] eq_refl).
  - exact (no_header_no_section
             (join_lines [py "just text"; py "more text"]) eq_refl).
Defined.

(** C6.  The titles of the sections are, in order, the texts after the
    two-character marker of the header lines, stripped; stripping removes
    whitespace at the two ends only.  The line "##   Spaced Title   "
    gives the title "Spaced Title". *)
Theorem titles_trimmed :
  (forall md, exists secs,
      convert_markdown_to_json md = Ok secs
      /\ map (fun d => getitem d "title"%string) secs
         = map (fun l => Some (strip (skipn 2 l)))
               (filter is_header (splitlines md)))
  /\ (forall s, exists a b,
         s = a ++ strip s ++ b
         /\ forallb isspace a = true /\ forallb isspace b = true
         /\ (forall x, hd_error (strip s) = Some x -> isspace x = false)
         /\ (forall x, last_char (strip s) = Some x -> isspace x = false))
  /\ convert_markdown_to_json (py "##   Spaced Title   ")
     = Ok [section (py "Spaced Title") []].
Proof.
  split; [|split; [|vm_compute; reflexivity]].
  - intros md. exists (collect None (splitlines md)).
    split; [apply convert_collect|]. apply (collect_titles _ None).
  - intros s. destruct (strip_decompose s) as (a & b & E & Ha & Hb).
    exists a, b. repeat split; try assumption.
    + apply strip_head.
    + apply strip_last.
Qed.

(** C7.  Cleaning a content twice gives what cleaning it once gives. *)
Theorem clean_idempotent s : clean (clean s) = clean s.
Proof.
  rewrite (clean_collapse (clean s)).
  rewrite (strip_fixed _ (clean_head s) (clean_last s)).
  apply collapse_fixed. apply clean_collapsed.
Qed.

(** C8.  On every text the function returns a list: no subscript raises
    [KeyError], no [group(1)] is missing, and the scan of [re.sub] ends
    within the steps it is given. *)
Theorem convert_total md :
  exists secs, convert_markdown_to_json md = Ok secs.
Proof.
  exists (collect None (splitlines md)). apply convert_collect.
Qed.

(** C9.  A line made of the marker and one or more whitespace characters
    matches the header pattern, and the section it opens has the empty
    title; it comes after the sections of the headers before it. *)
Theorem blank_title_header md pre ws rest :
  splitlines md = pre ++ (HASH :: HASH :: ws) :: rest ->
  ws <> [] ->
  forallb isspace ws = true ->
  is_header (HASH :: HASH :: ws) = true
  /\ exists before content after,
       convert_markdown_to_json md
       = Ok (before ++ section [] content :: after)
       /\ length before = length (filter is_header pre).
Proof.
  intros E Hne Hws.
  assert (Hplain : plain (HASH :: HASH :: ws) = true).
  { pose proof (splitlines_plain md) as H. rewrite E in H.
    apply Forall_app in H as [_ H]. now inversion H. }
  assert (Hh : is_header (HASH :: HASH :: ws) = true).
  { rewrite (is_header_plain _ Hplain). now destruct ws. }
  split; [exact Hh|].
  destruct (collect_upto pre _ rest Hh None) as (before & Eb & Hlen).
  assert (Ht : title_of (HASH :: HASH :: ws) = []).
  { unfold title_of. cbn [skipn]. now apply strip_space_only. }
  rewrite Ht in Eb.
  destruct (collect_open [] rest []) as (content & after & Ec).
  exists before, content, after.
  split; [|exact Hlen].
  rewrite convert_collect, E. f_equal.
  etransitivity; [exact Eb|]. f_equal. exact Ec.
Qed.

Lemma blank_title_header_witness :
  is_header (py "##   ") = true
  /\ exists before content after,
       convert_markdown_to_json (join_lines [py "## A"; py "##   "; py "x"])
       = Ok (before ++ section [] content :: after)
       /\ length before = length (filter is_header [py "## A"]).
Proof.
  refine (blank_title_header
            (join_lines [py "## A"; py "##   "; py "x"])
            [py "## A"] (py "   ") [py "x"] eq_refl _ eq_refl).
  discriminate.
Defined.

(** C10.  When the last header line of a document is followed by no
    line, or by whitespace-only lines alone, its section is still
    returned, last, with the empty content. *)
Theorem last_header_empty_content md pre h trailing :
  splitlines md = pre ++ h :: trailing ->
  is_header h = true ->
  forallb (forallb isspace) trailing = true ->
  exists before,
    convert_markdown_to_json md = Ok (before ++ [section (title_of h) []])
    /\ length before = length (filter is_header pre).
Proof.
  intros E Hh Htr.
  destruct (collect_upto pre h trailing Hh None) as (before & Eb & Hlen).
  exists before. split; [|exact Hlen].
  rewrite convert_collect, E. f_equal.
  etransitivity; [exact Eb|]. f_equal.
  rewrite <- (app_nil_r trailing).
  rewrite (collect_body _ _ _ [] (space_lines_no_header _ Htr)).
  cbn [collect flush app]. do 2 f_equal.
  apply clean_space_only. now apply space_lines_text.
Qed.

Lemma last_header_empty_content_witness :
  (exists before,
      convert_markdown_to_json (py "## A")
      = Ok (before ++ [section (py "A") []])
      /\ length before = 0)
  /\ (exists before,
         convert_markdown_to_json
           (join_lines [py "## A"; py "x"; py "## B"; py "  "; []; []])
         = Ok (before ++ [section (py "B") []])
         /\ length before = 1).
Proof.
  split.
  - exact (last_header_empty_content (py "## A") [] (py "## A") []
             eq_refl eq_refl eq_refl).
  - exact (last_header_empty_content
             (join_lines [py "## A"; py "x"; py "## B"; py "  "; []; []])
             [py "## A"; py "x"] (py "## B") [py "  "; []]
             eq_refl eq_refl eq_refl).
Defined.

(* ================================================================== *)
(** * The rest of the program: further properties of the splitter,
      JSON output, and [main] *)

(* ------------------------------------------------------------------ *)
(** ** Further vocabulary *)

(** A string without any of the line boundaries of [splitlines]. *)
Definition unbroken (s : str) : bool :=
  forallb (fun c => negb (is_linebreak c)) s.

(** [sep.join(ls)] *)
Fixpoint join_sep (sep : str) (ls : list str) : str :=
  match ls with
  | [] => []
  | [l] => l
  | l :: ls' => l ++ sep ++ join_sep sep ls'
  end.

(** A list of lines that is empty or starts with a header line. *)
Definition at_header (ls : list str) : bool :=
  match ls with
  | [] => true
  | l :: _ => is_header l
  end.

(** The characters of a string that are not whitespace, in order. *)
Definition ink (s : str) : str := filter (fun c => negb (isspace c)) s.

(* ------------------------------------------------------------------ *)
(** ** JSON output: [json.dumps(json_data, indent=2, ensure_ascii=False)]
       (line 107) *)

Module Json.
Import Py Dict.

Definition QUOTE : char := 34%N.
Definition BACKSLASH : char := 92%N.
Definition SPACE : char := 32%N.

(** One lower-case hexadecimal digit. *)
Definition hex_digit (n : N) : char :=
  if (n <? 10)%N then (48 + n)%N else (87 + n)%N.

(** The escape of one character when [ensure_ascii] is false: the quote,
    the backslash and the characters below U+0020. *)
Definition escape_char (c : char) : str :=
  if (c =? QUOTE)%N then [BACKSLASH; QUOTE]
  else if (c =? BACKSLASH)%N then [BACKSLASH; BACKSLASH]
  else if (c =? 10)%N then [BACKSLASH; 110%N]
  else if (c =? 13)%N then [BACKSLASH; 114%N]
  else if (c =? 9)%N then [BACKSLASH; 116%N]
  else if (c =? 8)%N then [BACKSLASH; 98%N]
  else if (c =? 12)%N then [BACKSLASH; 102%N]
  else if (c <? 32)%N then
    [BACKSLASH; 117%N; 48%N; 48%N;
     hex_digit (c / 16)%N; hex_digit (c mod 16)%N]
  else [c].

(** A string between quotes. *)
Definition encode_basestring (s : str) : str :=
  QUOTE :: flat_map escape_char s ++ [QUOTE].

(** A newline and the indentation of a nesting level, two spaces each. *)
Definition newline_indent (level : nat) : str :=
  LF :: repeat SPACE (2 * level).

Definition encode_item (kv : string * str) : str :=
  encode_basestring (py (fst kv)) ++ py ": " ++ encode_basestring (snd kv).

(** A dictionary at a nesting level. *)
Definition encode_dict (level : nat) (d : dict) : str :=
  match d with
  | [] => py "{}"
  | _ :: _ =>
      py "{" ++ newline_indent (S level)
      ++ join_sep (py "," ++ newline_indent (S level)) (map encode_item d)
      ++ newline_indent level ++ py "}"
  end.

(** A list of dictionaries, at the top level. *)
Definition dumps (data : list dict) : str :=
  match data with
  | [] => py "[]"
  | _ :: _ =>
      py "[" ++ newline_indent 1
      ++ join_sep (py "," ++ newline_indent 1) (map (encode_dict 1) data)
      ++ newline_indent 0 ++ py "]"
  end.

End Json.

(* ------------------------------------------------------------------ *)
(** ** Files and [main] (lines 6-22 and 77-117)

    The operating system is a parameter: what opening and reading a path
    gives in a state of the world, and what writing a text to a path
    does.  [main] is taken after [parse_args], on the two arguments it
    has parsed. *)

Import Json.

(** What [open(filepath, 'r', encoding='utf-8')] and [f.read()] give:
    the text, [FileNotFoundError], or another exception with its
    message. *)
Inductive read_outcome :=
| ReadOk (content : str)
| ReadMissing
| ReadError (message : str).

(** The exceptions [main] can meet: the two that the file functions
    raise, and those of the conversion. *)
Inductive py_exception :=
| FileNotFoundError (message : str)
| IOError (message : str)
| Conversion (e : exn).

Inductive outcome (A : Type) :=
| Returns (a : A)
| Raises (e : py_exception).

Arguments Returns {A} a.
Arguments Raises {A} e.

(** The parsed arguments: [input_file], and [output] with its default. *)
Record arguments := {
  input_file : str;
  output : str
}.

Definition default_output : str := py "output.json".

(** [str(e)] of an exception of the conversion. *)
Definition exn_message (e : exn) : str :=
  match e with
  | KeyError key => py "'" ++ py key ++ py "'"
  | AttributeError what =>
      py "'NoneType' object has no attribute '" ++ py what ++ py "'"
  end.

Section Files.

Variable world : Type.
Variable os_read : world -> str -> read_outcome.
Variable os_write : world -> str -> str -> world * option str.

(** Lines 6-14 *)
Definition read_file (w : world) (filepath : str) : outcome str :=
  match os_read w filepath with
  | ReadOk content => Returns content
  | ReadMissing =>
      Raises (FileNotFoundError
                (py "Error: The file '" ++ filepath ++ py "' was not found."))
  | ReadError e =>
      Raises (IOError
                (py "Error reading file '" ++ filepath ++ py "': " ++ e))
  end.

(** Lines 16-22 *)
Definition write_file (w : world) (filepath content : str)
  : world * outcome unit :=
  match os_write w filepath content with
  | (w', None) => (w', Returns tt)
  | (w', Some e) =>
      (w', Raises (IOError
                     (py "Error writing to file '" ++ filepath ++ py "': "
                      ++ e)))
  end.

(** Lines 100-104: the data to serialise, and what is printed on the
    way. *)
Definition json_data_of (md_content : str)
  : list str * outcome (list dict) :=
  match strip md_content with
  | [] =>
      ([py "Input Markdown file is empty. Generating empty JSON."],
       Returns [])
  | _ :: _ =>
      ([], match convert_markdown_to_json md_content with
           | Ok secs => Returns secs
           | Raise e => Raises (Conversion e)
           end)
  end.

(** The body of the [try] (lines 97-112): the world it leaves, the lines
    it has printed, and how it ends. *)
Definition main_try (args : arguments) (w : world)
  : world * list str * outcome unit :=
  let out := [py "Reading content from: " ++ input_file args] in
  match read_file w (input_file args) with
  | Raises e => (w, out, Raises e)
  | Returns md_content =>
      let '(notice, data) := json_data_of md_content in
      let out := out ++ notice in
      match data with
      | Raises e => (w, out, Raises e)
      | Returns json_data =>
          let json_output := dumps json_data in
          match write_file w (output args) json_output with
          | (w', Raises e) => (w', out, Raises e)
          | (w', Returns _) =>
              (w',
               out ++ [py "Successfully converted '" ++ input_file args
                       ++ py "' to JSON.";
                       py "Output saved to: " ++ output args],
               Returns tt)
          end
      end
  end.

(** Lines 114-117: what the handlers print. *)
Definition handler (e : py_exception) : str :=
  match e with
  | FileNotFoundError m => m
  | IOError m => m
  | Conversion e' => py "An unexpected error occurred: " ++ exn_message e'
  end.

(** [main] after [parse_args]: the world it leaves and the lines it
    prints. *)
Definition main (args : arguments) (w : world) : world * list str :=
  match main_try args w with
  | (w', out, Returns _) => (w', out)
  | (w', out, Raises e) => (w', out ++ [handler e])
  end.

End Files.

Arguments read_file {world} os_read w filepath.
Arguments write_file {world} os_write w filepath content.
Arguments main_try {world} os_read os_write args w.
Arguments main {world} os_read os_write args w.

(** A world for examples: the files that exist, with their texts; every
    write succeeds. *)
Definition shelf := list (str * str).

Fixpoint shelf_get (w : shelf) (path : str) : option str :=
  match w with
  | [] => None
  | (p, text) :: w' =>
      if list_eq_dec N.eq_dec p path then Some text else shelf_get w' path
  end.

Definition shelf_read (w : shelf) (path : str) : read_outcome :=
  match shelf_get w path with
  | Some text => ReadOk text
  | None => ReadMissing
  end.

Definition shelf_write (w : shelf) (path text : str)
  : shelf * option str :=
  ((path, text) :: w, None).

(* ------------------------------------------------------------------ *)
(** ** Vocabulary for the JSON output *)

(** Reading back one hexadecimal digit. *)
Definition unhex (h : char) : N :=
  if (h <? 58)%N then (h - 48)%N else (h - 87)%N.

(** Reading back the character at the head of an escaped text, with the
    text after it; nothing at a bare quote, which ends the string. *)
Definition unescape_head (s : str) : option (char * str) :=
  match s with
  | [] => None
  | c :: r =>
      if (c =? QUOTE)%N then None
      else if (c =? BACKSLASH)%N then
        match r with
        | k :: r' =>
            if (k =? QUOTE)%N then Some (QUOTE, r')
            else if (k =? BACKSLASH)%N then Some (BACKSLASH, r')
            else if (k =? 110)%N then Some (10%N, r')
            else if (k =? 114)%N then Some (13%N, r')
            else if (k =? 116)%N then Some (9%N, r')
            else if (k =? 98)%N then Some (8%N, r')
            else if (k =? 102)%N then Some (12%N, r')
            else if (k =? 117)%N then
              match r' with
              | _ :: _ :: h :: l :: r'' =>
                  Some ((16 * unhex h + unhex l)%N, r'')
              | _ => None
              end
            else None
        | [] => None
        end
      else Some (c, r)
  end.

(** The pair of a title and a content as the dictionary of a section. *)
Definition section_of_pair (tc : str * str) : dict :=
  section (fst tc) (snd tc).

(** The three fixed parts of an encoded section, up to the opening quote
    of the title, between the two strings, and after the content. *)
Definition section_head : str :=
  py "{" ++ newline_indent 2 ++ [QUOTE] ++ py "title" ++ [QUOTE] ++ py ": "
  ++ [QUOTE].

Definition section_middle : str :=
  py "," ++ newline_indent 2 ++ [QUOTE] ++ py "content" ++ [QUOTE]
  ++ py ": " ++ [QUOTE].

Definition section_foot : str := newline_indent 1 ++ py "}".

(** What follows the first section of a list in the output. *)
Definition after_sections (l : list dict) : str :=
  match l with
  | [] => newline_indent 0 ++ py "]"
  | _ :: _ =>
      py "," ++ newline_indent 1
      ++ join_sep (py "," ++ newline_indent 1) (map (encode_dict 1) l)
      ++ newline_indent 0 ++ py "]"
  end.

Definition count_LF (s : str) : nat := count_occ N.eq_dec s LF.

(* ------------------------------------------------------------------ *)
(** ** More on lines *)

Lemma splitlines_unbroken_le n :
  forall s, length s <= n ->
            Forall (fun l => unbroken l = true) (splitlines s).
Proof.
  induction n as [|n IH]; intros [|c s'] Hn; simpl in *;
    try constructor; try lia.
  destruct (is_linebreak c) eqn:Ec.
  - constructor; [reflexivity|].
    destruct s' as [|d s'']; [constructor|].
    destruct ((c =? CR)%N && (d =? LF)%N); apply IH; simpl in *; lia.
  - assert (Hs' : Forall (fun l => unbroken l = true) (splitlines s'))
      by (apply IH; lia).
    destruct (splitlines s') as [|l ls].
    + constructor; [|constructor]. unfold unbroken; simpl. now rewrite Ec.
    + inversion Hs'; subst. constructor; [|assumption].
      unfold unbroken in *; simpl. now rewrite Ec.
Qed.

Lemma splitlines_unbroken s :
  Forall (fun l => unbroken l = true) (splitlines s).
Proof. apply (splitlines_unbroken_le (length s)). lia. Qed.

(** Every character of a line is a character of the text. *)
Lemma splitlines_chars_le n :
  forall s, length s <= n ->
            forall l c, In l (splitlines s) -> In c l -> In c s.
Proof.
  induction n as [|n IH]; intros [|c0 s'] Hn l c Hl Hc; simpl in *;
    try contradiction; try lia.
  destruct (is_linebreak c0).
  - destruct Hl as [<-|Hl]; [contradiction|]. right.
    destruct s' as [|d s'']; [contradiction|].
    destruct ((c0 =? CR)%N && (d =? LF)%N).
    + right. apply (IH s'' ltac:(simpl in *; lia) l c Hl Hc).
    + apply (IH (d :: s'') ltac:(simpl in *; lia) l c Hl Hc).
  - pose proof (IH s' ltac:(lia)) as IH'.
    destruct (splitlines s') as [|l0 ls].
    + destruct Hl as [<-|[]]. destruct Hc as [<-|[]]. now left.
    + destruct Hl as [<-|Hl].
      * destruct Hc as [<-|Hc]; [now left|right].
        apply (IH' l0 c); [now left|assumption].
      * right. apply (IH' l c); [now right|assumption].
Qed.

Lemma splitlines_chars s l c :
  In l (splitlines s) -> In c l -> In c s.
Proof. apply (splitlines_chars_le (length s)). lia. Qed.

Lemma splitlines_line l :
  unbroken l = true -> splitlines l = match l with [] => [] | _ => [l] end.
Proof.
  induction l as [|c l IH]; [reflexivity|].
  unfold unbroken. simpl. intros H. apply andb_prop in H as [Hc Hl].
  apply negb_true_iff in Hc. rewrite Hc, (IH Hl). now destruct l.
Qed.

(** A line, a terminator, and the rest of the text. *)
Lemma splitlines_cons l sep rest :
  unbroken l = true ->
  sep = [LF] \/ sep = [CR; LF]
  \/ (sep = [CR] /\ hd_error rest <> Some LF) ->
  splitlines (l ++ sep ++ rest) = l :: splitlines rest.
Proof.
  intros Hl Hsep. induction l as [|c l IH].
  - destruct Hsep as [->|[->|[-> Hr]]]; simpl.
    + now destruct rest.
    + reflexivity.
    + destruct rest as [|d rest]; [reflexivity|].
      destruct (N.eqb_spec d LF) as [->|]; [now elim Hr|reflexivity].
  - unfold unbroken in Hl. simpl in Hl. apply andb_prop in Hl as [Hc Hl].
    apply negb_true_iff in Hc. simpl. now rewrite Hc, (IH Hl).
Qed.

Lemma join_sep_LF ls : join_sep [LF] ls = join_lines ls.
Proof.
  induction ls as [|l ls IH]; [reflexivity|].
  destruct ls as [|l' ls]; [reflexivity|].
  change (join_sep [LF] (l :: l' :: ls))
    with (l ++ [LF] ++ join_sep [LF] (l' :: ls)).
  now rewrite IH.
Qed.

Lemma unbroken_head l c :
  unbroken l = true -> hd_error l = Some c -> c <> LF.
Proof.
  destruct l as [|d l]; [discriminate|].
  unfold unbroken. simpl. intros H [= <-] ->. discriminate.
Qed.

(** Under each of the three terminators, a text has the lines it has
    under "\n". *)
Lemma splitlines_join sep ls :
  Forall (fun l => unbroken l = true) ls ->
  sep = [LF] \/ sep = [CR; LF] \/ sep = [CR] ->
  splitlines (join_sep sep ls) = splitlines (join_lines ls).
Proof.
  intros Hls Hsep. induction Hls as [|l ls Hl Hls IH]; [reflexivity|].
  destruct ls as [|l' ls]; [reflexivity|].
  change (join_sep sep (l :: l' :: ls))
    with (l ++ sep ++ join_sep sep (l' :: ls)).
  change (join_lines (l :: l' :: ls))
    with (l ++ [LF] ++ join_lines (l' :: ls)).
  rewrite (splitlines_cons l [LF] _ Hl) by now left.
  rewrite <- IH. apply splitlines_cons; [assumption|].
  destruct Hsep as [-> | [-> | ->]]; [now left|right; now left|].
  right; right. split; [reflexivity|].
  pose proof (Forall_inv Hls) as Hl'. cbv beta in Hl'.
  destruct l' as [|d l'].
  - destruct ls; simpl; discriminate.
  - unfold unbroken in Hl'. simpl in Hl'.
    apply andb_prop in Hl' as [Hd _].
    destruct ls; simpl; intros [= ->]; discriminate.
Qed.

(* ------------------------------------------------------------------ *)
(** ** More on [strip] and on cleaning *)

Lemma lstrip_nil_space s : lstrip s = [] -> forallb isspace s = true.
Proof.
  induction s as [|c s IH]; [reflexivity|]. simpl.
  destruct (isspace c); [assumption|discriminate].
Qed.

Lemma strip_nil_space s : strip s = [] -> forallb isspace s = true.
Proof.
  unfold strip, rstrip. intros H.
  apply (f_equal (@rev char)) in H. rewrite rev_involutive in H.
  simpl in H. apply lstrip_nil_space in H.
  destruct (lstrip s) as [|c t] eqn:E; [now apply lstrip_nil_space|].
  assert (Hc : isspace c = false) by (apply (lstrip_head s); now rewrite E).
  rewrite forallb_forall in H.
  rewrite (H c) in Hc; [discriminate|]. rewrite <- in_rev. now left.
Qed.

Lemma strip_In s c : In c (strip s) -> In c s.
Proof.
  destruct (strip_decompose s) as (a & b & E & _).
  intros H. rewrite E. apply in_or_app. right. apply in_or_app. now left.
Qed.

(** [strip] gives what it would give again. *)
Lemma strip_strip s : strip (strip s) = strip s.
Proof. apply strip_fixed; [apply strip_head|apply strip_last]. Qed.

Lemma rstrip_app_space s w :
  forallb isspace w = true -> rstrip (s ++ w) = rstrip s.
Proof.
  intros H. unfold rstrip. rewrite rev_app_distr, lstrip_app_space;
    [reflexivity|].
  rewrite forallb_forall in *. intros x Hx. apply H. now apply in_rev.
Qed.

Lemma lstrip_app_text s t :
  lstrip s <> [] -> lstrip (s ++ t) = lstrip s ++ t.
Proof.
  induction s as [|c s IH]; simpl; [congruence|].
  destruct (isspace c); [assumption|reflexivity].
Qed.

(** Whitespace around a text does not count. *)
Lemma strip_pad w1 s w2 :
  forallb isspace w1 = true -> forallb isspace w2 = true ->
  strip (w1 ++ s ++ w2) = strip s.
Proof.
  intros H1 H2. rewrite (strip_app_space _ _ H1). unfold strip.
  destruct (lstrip s) as [|c t] eqn:E.
  - apply lstrip_nil_space in E.
    rewrite lstrip_space_only; [reflexivity|].
    now rewrite forallb_app, E, H2.
  - rewrite lstrip_app_text by congruence.
    rewrite E. now apply rstrip_app_space.
Qed.

Lemma clean_pad w1 s w2 :
  forallb isspace w1 = true -> forallb isspace w2 = true ->
  clean (w1 ++ s ++ w2) = clean s.
Proof. intros H1 H2. now rewrite !clean_collapse, strip_pad. Qed.

Lemma ink_space w : forallb isspace w = true -> ink w = [].
Proof.
  induction w as [|c w IH]; [reflexivity|]. simpl.
  destruct (isspace c); simpl; [assumption|discriminate].
Qed.

Lemma ink_app s t : ink (s ++ t) = ink s ++ ink t.
Proof. apply filter_app. Qed.

Lemma ink_strip s : ink (strip s) = ink s.
Proof.
  destruct (strip_decompose s) as (a & b & E & Ha & Hb).
  rewrite E at 2. rewrite !ink_app, (ink_space _ Ha), (ink_space _ Hb).
  now rewrite app_nil_r.
Qed.

Lemma ink_collapse s : ink (collapse s) = ink s.
Proof.
  induction s as [s IH] using str_length_ind.
  destruct s as [|c s]; [reflexivity|].
  destruct (N.eqb_spec c LF) as [->|Hc].
  - destruct (blank_end s) as [m|] eqn:Es.
    + rewrite (collapse_LF_match _ _ Es).
      pose proof (blank_end_shorter _ _ Es) as Hlen.
      destruct (blank_end_some _ _ Es) as (w & E & Hw & _).
      rewrite E.
      change (LF :: LF :: collapse (m_rest m))
        with ([LF; LF] ++ collapse (m_rest m)).
      change (LF :: w ++ LF :: m_rest m)
        with ([LF] ++ w ++ [LF] ++ m_rest m).
      rewrite !ink_app, (ink_space _ Hw). simpl.
      apply IH. simpl; lia.
    + rewrite collapse_LF_quiet by now rewrite quiet_blank_end, Es.
      simpl. apply IH. simpl; lia.
  - apply N.eqb_neq in Hc. rewrite (collapse_other _ _ Hc).
    simpl. rewrite (IH s) by (simpl; lia). reflexivity.
Qed.

Lemma collapse_length s : length (collapse s) <= length s.
Proof.
  induction s as [s IH] using str_length_ind.
  destruct s as [|c s]; [reflexivity|].
  destruct (N.eqb_spec c LF) as [->|Hc].
  - destruct (blank_end s) as [m|] eqn:Es.
    + rewrite (collapse_LF_match _ _ Es).
      pose proof (blank_end_shorter _ _ Es) as Hlen.
      pose proof (IH (m_rest m) ltac:(simpl; lia)). simpl. lia.
    + rewrite collapse_LF_quiet by now rewrite quiet_blank_end, Es.
      pose proof (IH s ltac:(simpl; lia)). simpl. lia.
  - apply N.eqb_neq in Hc. rewrite (collapse_other _ _ Hc).
    pose proof (IH s ltac:(simpl; lia)). simpl. lia.
Qed.

Lemma strip_length s : length (strip s) <= length s.
Proof.
  destruct (strip_decompose s) as (a & b & E & _).
  rewrite E at 2. rewrite !length_app. lia.
Qed.

(** The substitution brings in no character but the newline. *)
Lemma collapse_In s c : In c (collapse s) -> In c s \/ c = LF.
Proof.
  induction s as [s IH] using str_length_ind.
  destruct s as [|c0 s]; [intros []|].
  destruct (N.eqb_spec c0 LF) as [->|Hc].
  - destruct (blank_end s) as [m|] eqn:Es.
    + rewrite (collapse_LF_match _ _ Es).
      pose proof (blank_end_shorter _ _ Es) as Hlen.
      destruct (blank_end_some _ _ Es) as (w & E & _).
      intros [<-|[<-|H]]; [now right|now right|].
      destruct (IH (m_rest m) ltac:(simpl; lia) H) as [H'|H'];
        [left|now right].
      right. rewrite E. apply in_or_app. right. now right.
    + rewrite collapse_LF_quiet by now rewrite quiet_blank_end, Es.
      intros [<-|H]; [now right|].
      destruct (IH s ltac:(simpl; lia) H) as [H'|H'];
        [left; now right|now right].
  - apply N.eqb_neq in Hc. rewrite (collapse_other _ _ Hc).
    intros [<-|H]; [left; now left|].
    destruct (IH s ltac:(simpl; lia) H) as [H'|H'];
      [left; now right|now right].
Qed.

Lemma clean_In s c : In c (clean s) -> In c s \/ c = LF.
Proof.
  rewrite clean_collapse. intros H.
  destruct (collapse_In _ _ H) as [H'|H']; [left|now right].
  now apply strip_In.
Qed.

(* ------------------------------------------------------------------ *)
(** ** More on [collect] *)

(** What holds of every open section holds of every section returned. *)
Lemma collect_invariant (Q : str -> str -> Prop) lines :
  (forall l, In l lines -> is_header l = true -> Q (title_of l) []) ->
  (forall t c l, In l lines -> Q t c -> Q t (c ++ l ++ [LF])) ->
  forall cur,
    match cur with Some (t, c) => Q t c | None => True end ->
    Forall (fun d => exists t c, d = section t (clean c) /\ Q t c)
           (collect cur lines).
Proof.
  induction lines as [|l ls IH]; intros Hopen Hfeed cur Hcur.
  - destruct cur as [[t c]|]; simpl; repeat constructor. now exists t, c.
  - assert (IH' := fun H1 H2 => IH H1 H2).
    assert (Hopen' : forall l', In l' ls -> is_header l' = true ->
                                Q (title_of l') [])
      by (intros l' Hl'; apply Hopen; now right).
    assert (Hfeed' : forall t c l', In l' ls -> Q t c ->
                                    Q t (c ++ l' ++ [LF]))
      by (intros t c l' Hl'; apply Hfeed; now right).
    cbn [collect]. destruct (is_header l) eqn:Hl.
    + apply Forall_app. split.
      * destruct cur as [[t c]|]; simpl; repeat constructor.
        now exists t, c.
      * apply (IH Hopen' Hfeed'). apply Hopen; [now left|assumption].
    + apply (IH Hopen' Hfeed').
      destruct cur as [[t c]|]; simpl; [|exact I].
      apply Hfeed; [now left|assumption].
Qed.

(** A document splits at a header line. *)
Lemma collect_app l1 l2 :
  at_header l2 = true ->
  forall cur, collect cur (l1 ++ l2) = collect cur l1 ++ collect None l2.
Proof.
  intros H2. induction l1 as [|l ls IH]; intros cur.
  - simpl. destruct l2 as [|h r].
    + simpl. now rewrite app_nil_r.
    + simpl in H2. cbn [collect]. now rewrite H2.
  - cbn [app collect]. destruct (is_header l).
    + now rewrite IH, app_assoc.
    + apply IH.
Qed.

Lemma collect_prefix_congr pre x y :
  (forall cur, collect cur x = collect cur y) ->
  forall cur, collect cur (pre ++ x) = collect cur (pre ++ y).
Proof.
  intros H. induction pre as [|l ls IH]; intros cur; [apply H|].
  cbn [app collect]. destruct (is_header l); now rewrite IH.
Qed.

Lemma body_text_app a b : body_text (a ++ b) = body_text a ++ body_text b.
Proof. unfold body_text. now rewrite map_app, concat_app. Qed.

Lemma no_header_app a b :
  no_header (a ++ b) = no_header a && no_header b.
Proof. apply forallb_app. Qed.

Lemma starts_marker l :
  is_header l = true -> exists c rest, l = HASH :: HASH :: c :: rest.
Proof.
  unfold is_header, re_match, header_pattern.
  destruct l as [|a [|b rest]]; [discriminate| |].
  - rewrite run_Lit. now destruct (a =? HASH)%N.
  - rewrite !run_Lit, run_Star.
    destruct (N.eqb_spec a HASH) as [->|]; [|discriminate].
    destruct (N.eqb_spec b HASH) as [->|]; [|discriminate].
    destruct rest as [|c rest]; [discriminate|]. intros _. now exists c, rest.
Qed.

(* ------------------------------------------------------------------ *)
(** ** Further properties of the splitter *)

(** X1.  Every dictionary returned has exactly the keys "title" and
    "content", in this order; its title has no whitespace at either end
    and holds no line boundary. *)
Theorem sections_well_shaped md :
  exists secs,
    convert_markdown_to_json md = Ok secs
    /\ Forall (fun d => exists t c,
                   d = [("title"%string, t); ("content"%string, c)]
                   /\ strip t = t /\ unbroken t = true)
              secs.
Proof.
  exists (collect None (splitlines md)).
  split; [apply convert_collect|].
  pose proof (splitlines_unbroken md) as Hu. rewrite Forall_forall in Hu.
  eapply Forall_impl;
    [|apply (collect_invariant
               (fun t _ => strip t = t /\ unbroken t = true)
               (splitlines md))].
  - intros d (t & c & -> & Ht). now exists t, (clean c).
  - intros l Hl _. split; [apply strip_strip|].
    unfold title_of, unbroken. apply forallb_forall. intros x Hx.
    apply strip_In in Hx.
    assert (Hin : In x l).
    { rewrite <- (firstn_skipn 2 l). apply in_or_app. now right. }
    specialize (Hu l Hl). unfold unbroken in Hu.
    rewrite forallb_forall in Hu. now apply Hu.
  - intros t c l _ H. exact H.
  - exact I.
Qed.

(** X2.  The only line boundary a content holds is "\n": carriage
    returns, form feeds and the other boundaries of the input are gone. *)
Theorem content_newlines_only md :
  exists secs,
    convert_markdown_to_json md = Ok secs
    /\ Forall (fun d => exists c,
                   getitem d "content"%string = Some c
                   /\ forall x, In x c -> is_linebreak x = true -> x = LF)
              secs.
Proof.
  exists (collect None (splitlines md)).
  split; [apply convert_collect|].
  pose proof (splitlines_unbroken md) as Hu. rewrite Forall_forall in Hu.
  eapply Forall_impl;
    [|apply (collect_invariant
               (fun _ c => forall x, In x c -> is_linebreak x = true ->
                                     x = LF)
               (splitlines md))].
  - intros d (t & c & -> & Hc). exists (clean c).
    split; [reflexivity|]. intros x Hx Hb.
    destruct (clean_In _ _ Hx) as [H|H]; [now apply Hc|assumption].
  - intros l _ _ x [].
  - intros t c l Hl Hc x Hx Hb.
    apply in_app_or in Hx as [Hx|Hx]; [now apply Hc|].
    apply in_app_or in Hx as [Hx|[<-|[]]]; [|reflexivity].
    specialize (Hu l Hl). unfold unbroken in Hu.
    rewrite forallb_forall in Hu. specialize (Hu x Hx).
    rewrite Hb in Hu. discriminate.
  - exact I.
Qed.

(** X3.  When the lines of a document are those of a first document
    followed by those of a second one that starts with a header line, its
    sections are the sections of the first followed by those of the
    second. *)
Theorem convert_splits_at_header md md1 md2 :
  splitlines md = splitlines md1 ++ splitlines md2 ->
  at_header (splitlines md2) = true ->
  exists s1 s2,
    convert_markdown_to_json md1 = Ok s1
    /\ convert_markdown_to_json md2 = Ok s2
    /\ convert_markdown_to_json md = Ok (s1 ++ s2).
Proof.
  intros E H2.
  exists (collect None (splitlines md1)), (collect None (splitlines md2)).
  rewrite !convert_collect, E, (collect_app _ _ H2). now repeat split.
Qed.

Lemma convert_splits_at_header_witness :
  exists s1 s2,
    convert_markdown_to_json (join_lines [py "intro"; py "## A"; py "x"])
    = Ok s1
    /\ convert_markdown_to_json (join_lines [py "## B"; py "y"]) = Ok s2
    /\ convert_markdown_to_json
         (join_lines [py "intro"; py "## A"; py "x"; py "## B"; py "y"])
       = Ok (s1 ++ s2).
Proof.
  exact (convert_splits_at_header
           (join_lines [py "intro"; py "## A"; py "x"; py "## B"; py "y"])
           (join_lines [py "intro"; py "## A"; py "x"])
           (join_lines [py "## B"; py "y"])
           eq_refl eq_refl).
Defined.

(** X4.  A document whose lines end in "\r\n", or in "\r", gives the
    sections of the same lines ending in "\n". *)
Theorem line_endings_irrelevant ls :
  forallb unbroken ls = true ->
  convert_markdown_to_json (join_sep [CR; LF] ls)
  = convert_markdown_to_json (join_lines ls)
  /\ convert_markdown_to_json (join_sep [CR] ls)
     = convert_markdown_to_json (join_lines ls).
Proof.
  intros H.
  assert (Hls : Forall (fun l => unbroken l = true) ls).
  { apply Forall_forall. intros l Hl.
    rewrite forallb_forall in H. now apply H. }
  rewrite !convert_collect.
  rewrite (splitlines_join [CR; LF] ls Hls) by (right; now left).
  rewrite (splitlines_join [CR] ls Hls) by (right; now right).
  now split.
Qed.

Lemma line_endings_irrelevant_witness :
  convert_markdown_to_json
    (join_sep [CR; LF] [py "## A"; py "x"; []; py "## B"; py "y"; []])
  = convert_markdown_to_json
      (join_lines [py "## A"; py "x"; []; py "## B"; py "y"; []])
  /\ convert_markdown_to_json
       (join_sep [CR] [py "## A"; py "x"; []; py "## B"; py "y"; []])
     = convert_markdown_to_json
         (join_lines [py "## A"; py "x"; []; py "## B"; py "y"; []]).
Proof.
  exact (line_endings_irrelevant
           [py "## A"; py "x"; []; py "## B"; py "y"; []] eq_refl).
Defined.

(** X5.  A document made of whitespace alone has no section: the branch
    of [main] for an empty input (line 100) gives what the function
    would give. *)
Theorem blank_document_no_section md :
  strip md = [] -> convert_markdown_to_json md = Ok [].
Proof.
  intros H. apply strip_nil_space in H. rewrite forallb_forall in H.
  rewrite convert_collect.
  rewrite <- (app_nil_r (splitlines md)).
  rewrite collect_leading; [reflexivity|].
  apply space_lines_no_header. apply forallb_forall. intros l Hl.
  apply forallb_forall. intros c Hc. apply H.
  now apply (splitlines_chars md l c).
Qed.

Lemma blank_document_no_section_witness :
  convert_markdown_to_json (join_lines [py "  "; [9%N]; []; py " "])
  = Ok [].
Proof.
  exact (blank_document_no_section
           (join_lines [py "  "; [9%N]; []; py " "]) eq_refl).
Defined.

(** X6.  Cleaning a content neither changes, drops, adds nor reorders a
    character that is not whitespace, and never makes the content
    longer. *)
Theorem clean_keeps_text s :
  ink (clean s) = ink s /\ length (clean s) <= length s.
Proof.
  rewrite clean_collapse. split.
  - now rewrite ink_collapse, ink_strip.
  - pose proof (collapse_length (strip s)). pose proof (strip_length s). lia.
Qed.

(** X7.  A string matches the header pattern only if it starts with two
    '#' characters and goes on for one more character at least: "##"
    alone, a level-1 header, an indented header are lines of content. *)
Theorem header_needs_marker l :
  is_header l = true -> exists c rest, l = HASH :: HASH :: c :: rest.
Proof. apply starts_marker. Qed.

Lemma header_needs_marker_witness :
  exists c rest, py "## A" = HASH :: HASH :: c :: rest.
Proof. exact (header_needs_marker (py "## A") eq_refl). Defined.

(** X8.  Whitespace-only lines right after a header line, and right
    before the next header line or the end of the document, change
    nothing: the document without them has the same sections. *)
Theorem blank_edges_ignored md md' pre h blank1 body blank2 rest :
  splitlines md = pre ++ h :: blank1 ++ body ++ blank2 ++ rest ->
  splitlines md' = pre ++ h :: body ++ rest ->
  is_header h = true ->
  forallb (forallb isspace) blank1 = true ->
  forallb (forallb isspace) blank2 = true ->
  no_header body = true ->
  at_header rest = true ->
  convert_markdown_to_json md = convert_markdown_to_json md'.
Proof.
  intros E E' Hh H1 H2 Hb Hr.
  rewrite !convert_collect, E, E'. f_equal.
  apply collect_prefix_congr. intros cur.
  rewrite !(collect_header _ _ _ Hh). f_equal.
  rewrite !app_assoc.
  rewrite (collect_app _ rest Hr), (collect_app body rest Hr). f_equal.
  assert (Hall : no_header ((blank1 ++ body) ++ blank2) = true).
  { rewrite !no_header_app, Hb.
    now rewrite !space_lines_no_header. }
  rewrite <- (app_nil_r ((blank1 ++ body) ++ blank2)).
  rewrite <- (app_nil_r body) at 2.
  rewrite (collect_body _ _ _ [] Hall), (collect_body _ _ _ [] Hb).
  cbn [collect flush app]. do 2 f_equal.
  rewrite !body_text_app, <- app_assoc.
  apply clean_pad; now apply space_lines_text.
Qed.

Lemma blank_edges_ignored_witness :
  convert_markdown_to_json
    (join_lines [py "## A"; []; py "  "; py "x"; py "y"; []; py "## B"])
  = convert_markdown_to_json
      (join_lines [py "## A"; py "x"; py "y"; py "## B"]).
Proof.
  exact (blank_edges_ignored
           (join_lines
              [py "## A"; []; py "  "; py "x"; py "y"; []; py "## B"])
           (join_lines [py "## A"; py "x"; py "y"; py "## B"])
           [] (py "## A") [[]; py "  "] [py "x"; py "y"] [[]] [py "## B"]
           eq_refl eq_refl eq_refl eq_refl eq_refl eq_refl eq_refl).
Defined.

(* ------------------------------------------------------------------ *)
(** ** Properties of [main] *)

Lemma json_data_of_collect md :
  exists notice,
    json_data_of md = (notice, Returns (collect None (splitlines md))).
Proof.
  unfold json_data_of. destruct (strip md) as [|c t] eqn:E.
  - eexists. do 2 f_equal.
    assert (H : convert_markdown_to_json md = Ok []).
    { rewrite convert_collect.
      rewrite <- (app_nil_r (splitlines md)).
      rewrite collect_leading; [reflexivity|].
      apply strip_nil_space in E. rewrite forallb_forall in E.
      apply space_lines_no_header. apply forallb_forall. intros l Hl.
      apply forallb_forall. intros x Hx. apply E.
      now apply (splitlines_chars md l x). }
    rewrite convert_collect in H. now injection H as <-.
  - eexists. now rewrite convert_collect.
Qed.

Section MainProperties.

Variable world : Type.
Variable os_read : world -> str -> read_outcome.
Variable os_write : world -> str -> str -> world * option str.






End MainProperties.





(* ------------------------------------------------------------------ *)
(** ** Properties of the JSON output *)

Lemma unhex_hex n : (n < 16)%N -> unhex (hex_digit n) = n.
Proof.
  intros Hn. unfold unhex, hex_digit.
  destruct (N.ltb_spec n 10).
  - destruct (N.ltb_spec (48 + n) 58); lia.
  - destruct (N.ltb_spec (87 + n) 58); lia.
Qed.

Lemma unescape_escape c r : unescape_head (escape_char c ++ r) = Some (c, r).
Proof.
  unfold escape_char.
  destruct (N.eqb_spec c QUOTE) as [->|H1]; [reflexivity|].
  destruct (N.eqb_spec c BACKSLASH) as [->|H2]; [reflexivity|].
  destruct (N.eqb_spec c 10) as [->|H3]; [reflexivity|].
  destruct (N.eqb_spec c 13) as [->|H4]; [reflexivity|].
  destruct (N.eqb_spec c 9) as [->|H5]; [reflexivity|].
  destruct (N.eqb_spec c 8) as [->|H6]; [reflexivity|].
  destruct (N.eqb_spec c 12) as [->|H7]; [reflexivity|].
  destruct (N.ltb_spec c 32) as [H8|H8].
  - change (unescape_head
              ([BACKSLASH; 117%N; 48%N; 48%N; hex_digit (c / 16);
                hex_digit (c mod 16)] ++ r))
      with (Some ((16 * unhex (hex_digit (c / 16))
                   + unhex (hex_digit (c mod 16)))%N, r)).
    rewrite !unhex_hex.
    + now rewrite <- N.div_mod by discriminate.
    + apply N.mod_lt. discriminate.
    + apply N.Div0.div_lt_upper_bound. lia.
  - cbn [app unescape_head].
    apply N.eqb_neq in H1, H2. now rewrite H1, H2.
Qed.

(** Two escaped texts, each up to its closing quote, that agree come
    from the same string and are followed by the same text. *)
Lemma escaped_inj s1 :
  forall s2 r1 r2,
    flat_map escape_char s1 ++ QUOTE :: r1
    = flat_map escape_char s2 ++ QUOTE :: r2 ->
    s1 = s2 /\ r1 = r2.
Proof.
  induction s1 as [|c1 s1 IH]; intros [|c2 s2] r1 r2 H.
  - simpl in H. now injection H.
  - apply (f_equal unescape_head) in H. cbn [flat_map] in H.
    rewrite <- app_assoc, unescape_escape in H. discriminate.
  - apply (f_equal unescape_head) in H. cbn [flat_map] in H.
    rewrite <- app_assoc, unescape_escape in H. discriminate.
  - cbn [flat_map] in H. rewrite <- !app_assoc in H.
    apply (f_equal unescape_head) in H. rewrite !unescape_escape in H.
    injection H as -> H. destruct (IH _ _ _ H) as [-> ->]. now split.
Qed.

Lemma encode_section t c :
  encode_dict 1 (section t c)
  = section_head ++ flat_map escape_char t
    ++ QUOTE :: section_middle ++ flat_map escape_char c
    ++ QUOTE :: section_foot.
Proof.
  unfold encode_dict, section, encode_item, encode_basestring.
  cbn [map join_sep fst snd].
  change (flat_map escape_char (py "title")) with (py "title").
  change (flat_map escape_char (py "content")) with (py "content").
  unfold section_head, section_middle, section_foot.
  repeat (rewrite <- ?app_assoc, <- ?app_comm_cons). reflexivity.
Qed.

Lemma encoded_section_inj t1 c1 t2 c2 r1 r2 :
  encode_dict 1 (section t1 c1) ++ r1 = encode_dict 1 (section t2 c2) ++ r2 ->
  t1 = t2 /\ c1 = c2 /\ r1 = r2.
Proof.
  rewrite !encode_section.
  repeat (rewrite <- ?app_assoc, <- ?app_comm_cons).
  intros H. apply app_inv_head in H.
  apply escaped_inj in H as [-> H].
  apply app_inv_head in H.
  apply escaped_inj in H as [-> H].
  apply app_inv_head in H. now repeat split.
Qed.

Lemma dumps_cons d l :
  dumps (d :: l) = py "[" ++ newline_indent 1 ++ encode_dict 1 d
                   ++ after_sections l.
Proof.
  unfold dumps, after_sections. destruct l as [|d' l].
  - reflexivity.
  - change (join_sep (py "," ++ newline_indent 1)
              (map (encode_dict 1) (d :: d' :: l)))
      with (encode_dict 1 d ++ (py "," ++ newline_indent 1)
            ++ join_sep (py "," ++ newline_indent 1)
                 (map (encode_dict 1) (d' :: l))).
    now rewrite <- !app_assoc.
Qed.

Lemma after_sections_cons d l :
  after_sections (d :: l)
  = py "," ++ newline_indent 1 ++ encode_dict 1 d ++ after_sections l.
Proof.
  unfold after_sections. destruct l as [|d' l].
  - reflexivity.
  - change (join_sep (py "," ++ newline_indent 1)
              (map (encode_dict 1) (d :: d' :: l)))
      with (encode_dict 1 d ++ (py "," ++ newline_indent 1)
            ++ join_sep (py "," ++ newline_indent 1)
                 (map (encode_dict 1) (d' :: l))).
    now rewrite <- !app_assoc.
Qed.

Lemma after_sections_inj l1 :
  forall l2,
    after_sections (map section_of_pair l1)
    = after_sections (map section_of_pair l2) ->
    l1 = l2.
Proof.
  induction l1 as [|[t1 c1] l1 IH]; intros [|[t2 c2] l2] H.
  - reflexivity.
  - cbn [map] in H. rewrite after_sections_cons in H. discriminate.
  - cbn [map] in H. rewrite after_sections_cons in H. discriminate.
  - cbn [map] in H. rewrite !after_sections_cons in H.
    apply app_inv_head in H. apply app_inv_head in H.
    unfold section_of_pair in H at 1 3. cbn [fst snd] in H.
    apply encoded_section_inj in H as (-> & -> & H).
    now rewrite (IH _ H).
Qed.

Lemma escape_char_printable c :
  forallb (fun x => (32 <=? x)%N) (escape_char c) = true.
Proof.
  unfold escape_char.
  destruct (c =? QUOTE)%N; [reflexivity|].
  destruct (c =? BACKSLASH)%N; [reflexivity|].
  destruct (c =? 10)%N; [reflexivity|].
  destruct (c =? 13)%N; [reflexivity|].
  destruct (c =? 9)%N; [reflexivity|].
  destruct (c =? 8)%N; [reflexivity|].
  destruct (c =? 12)%N; [reflexivity|].
  destruct (N.ltb_spec c 32) as [H|H].
  - cbn [forallb]. unfold hex_digit.
    assert (Hd : forall n,
               (32 <=? (if n <? 10 then 48 + n else 87 + n))%N = true).
    { intros n. apply N.leb_le. destruct (n <? 10)%N; lia. }
    now rewrite !Hd.
  - cbn [forallb]. apply N.leb_le in H. now rewrite H.
Qed.

Lemma count_LF_app a b : count_LF (a ++ b) = count_LF a + count_LF b.
Proof. apply count_occ_app. Qed.

Lemma count_LF_printable s :
  forallb (fun x => (32 <=? x)%N) s = true -> count_LF s = 0.
Proof.
  induction s as [|c s IH]; [reflexivity|].
  simpl. intros H. apply andb_prop in H as [Hc Hs].
  unfold count_LF in *. simpl.
  destruct (N.eq_dec c LF) as [->|]; [discriminate|]. now apply IH.
Qed.

Lemma encoded_printable s :
  forallb (fun x => (32 <=? x)%N) (encode_basestring s) = true.
Proof.
  unfold encode_basestring. cbn [forallb]. rewrite forallb_app.
  cbn [forallb]. rewrite andb_true_r. cbn [N.leb]. 
  induction s as [|c s IH]; [reflexivity|].
  cbn [flat_map]. now rewrite forallb_app, escape_char_printable.
Qed.

Lemma escaped_no_LF s : count_LF (flat_map escape_char s) = 0.
Proof.
  apply count_LF_printable.
  induction s as [|c s IH]; [reflexivity|].
  cbn [flat_map]. now rewrite forallb_app, escape_char_printable.
Qed.

Lemma encoded_section_lines t c : count_LF (encode_dict 1 (section t c)) = 3.
Proof.
  rewrite encode_section.
  change (QUOTE :: section_middle ++ flat_map escape_char c
          ++ QUOTE :: section_foot)
    with ([QUOTE] ++ section_middle ++ flat_map escape_char c
          ++ [QUOTE] ++ section_foot).
  rewrite !count_LF_app, !escaped_no_LF. reflexivity.
Qed.

Lemma after_sections_lines l :
  count_LF (after_sections (map section_of_pair l)) = 4 * length l + 1.
Proof.
  induction l as [|[t c] l IH]; [reflexivity|].
  cbn [map]. rewrite after_sections_cons.
  rewrite !count_LF_app, IH. unfold section_of_pair at 1. cbn [fst snd].
  rewrite encoded_section_lines. cbn [length].
  change (count_LF (py ",")) with 0.
  change (count_LF (newline_indent 1)) with 1. lia.
Qed.

Lemma sections_are_pairs (l : list dict) :
  Forall (fun d => exists t c, d = section t c) l ->
  exists l', l = map section_of_pair l'.
Proof.
  induction 1 as [|d l (t & c & ->) _ (l' & ->)].
  - now exists [].
  - now exists ((t, c) :: l').
Qed.

Lemma convert_pairs md secs :
  convert_markdown_to_json md = Ok secs ->
  exists l, secs = map section_of_pair l.
Proof.
  rewrite convert_collect. intros [= <-].
  apply sections_are_pairs. apply collect_forall.
  intros t c. now exists t, (clean c).
Qed.

(** X14.  A string as it is written in the JSON text holds no control
    character: a title or a content never breaks a line of the output
    nor puts a raw tab or newline in it. *)
Theorem encoded_string_printable s :
  forallb (fun x => (32 <=? x)%N) (encode_basestring s) = true
  /\ hd_error (encode_basestring s) = Some QUOTE
  /\ last_char (encode_basestring s) = Some QUOTE.
Proof.
  split; [apply encoded_printable|]. split; [reflexivity|].
  unfold encode_basestring.
  change (QUOTE :: flat_map escape_char s ++ [QUOTE])
    with ((QUOTE :: flat_map escape_char s) ++ [QUOTE]).
  apply last_char_app.
Qed.

(** X15.  The JSON text of what the function returns is "[]" when there
    is no section; otherwise it has one line for each bracket and four
    lines for each section, whatever the titles and contents hold. *)
Theorem json_layout md :
  exists secs,
    convert_markdown_to_json md = Ok secs
    /\ match secs with
       | [] => dumps secs = py "[]"
       | _ :: _ => count_LF (dumps secs) = 4 * length secs + 1
       end.
Proof.
  exists (collect None (splitlines md)).
  split; [apply convert_collect|].
  destruct (convert_pairs md _ (convert_collect md)) as (l & ->).
  destruct l as [|[t c] l]; [reflexivity|].
  cbn [map]. rewrite dumps_cons, !count_LF_app, after_sections_lines.
  unfold section_of_pair at 1. cbn [fst snd].
  rewrite encoded_section_lines. cbn [length]. rewrite length_map.
  change (count_LF (py "[")) with 0.
  change (count_LF (newline_indent 1)) with 1. lia.
Qed.

(** X16.  The JSON text determines the sections: two results of the
    function with the same JSON text are the same list. *)
Theorem json_determines_sections md1 md2 s1 s2 :
  convert_markdown_to_json md1 = Ok s1 ->
  convert_markdown_to_json md2 = Ok s2 ->
  dumps s1 = dumps s2 ->
  s1 = s2.
Proof.
  intros H1 H2 H.
  destruct (convert_pairs _ _ H1) as (l1 & ->).
  destruct (convert_pairs _ _ H2) as (l2 & ->).
  f_equal. destruct l1 as [|[t1 c1] l1], l2 as [|[t2 c2] l2].
  - reflexivity.
  - cbn [map] in H. rewrite dumps_cons in H. discriminate.
  - cbn [map] in H. rewrite dumps_cons in H. discriminate.
  - cbn [map] in H. rewrite !dumps_cons in H.
    apply app_inv_head in H. apply app_inv_head in H.
    unfold section_of_pair in H at 1 3. cbn [fst snd] in H.
    apply encoded_section_inj in H as (-> & -> & H).
    now rewrite (after_sections_inj _ _ H).
Qed.

Lemma json_determines_sections_witness :
  [section (py "A") (py "x")] = [section (py "A") (py "x")].
Proof.
  exact (json_determines_sections
           (join_lines [py "## A"; py "x"])
           (join_lines [py "intro"; py "## A"; []; py "x"; []])
           [section (py "A") (py "x")] [section (py "A") (py "x")]
           eq_refl eq_refl eq_refl).
Defined.
